(** * Questio: the batch report orchestrator and its service client

  A shallow embedding of

  - [services/geminiService.ts]: [fileToGenerativePart],
    [searchScoringCriteria], [gradeSolutionAndGenerateFeedback],
    [formatReportToHtml];
  - [constants.ts]: [AVAILABLE_MODELS], [getInitialModel],
    [initialFormData];
  - [App.tsx]: [handleGenerateReport], [handleSearchCriteria],
    [handleFormChange];
  - [components/InputForm.tsx]: the handlers of the roster and of the
    file lists, the validation of the form;
  - [components/ReportDisplay.tsx]: [createSafeFilename];

  followed by the properties of the specification that concern them, and
  by further properties of the code.

  JavaScript strings are sequences of UTF-16 code units, the React state
  of [App] and the outside world (the generation service, the wall clock,
  the console) are threaded explicitly through a state-and-exception
  monad, and every effect is appended to a time-stamped trace. *)

From Stdlib Require Import String Ascii NArith Sorted.
From stdpp Require Import base option list gmap.

Set Default Proof Using "Type".

(** ** JavaScript strings *)

Module JsString.

(** A string is the list of its UTF-16 code units. *)
Abbreviation jsstring := (list N).

Definition bytes (s : string) : list N :=
  N_of_ascii <$> list_ascii_of_string s.

(** Source literals are written as Rocq strings, which hold the UTF-8
    bytes of the source text; [utf16] decodes them into code units. The
    constants that stand for a literal of the source are decoded once,
    where they are defined. *)
Fixpoint utf16 (bs : list N) : jsstring :=
  match bs with
  | [] => []
  | b0 :: r0 =>
    if (b0 <? 128)%N then b0 :: utf16 r0
    else match r0 with
    | [] => [b0]
    | b1 :: r1 =>
      if (b0 <? 224)%N then
        N.lor (N.shiftl (N.land b0 31) 6) (N.land b1 63) :: utf16 r1
      else match r1 with
      | [] => [b0; b1]
      | b2 :: r2 =>
        if (b0 <? 240)%N then
          N.lor (N.shiftl (N.land b0 15) 12)
            (N.lor (N.shiftl (N.land b1 63) 6) (N.land b2 63)) :: utf16 r2
        else match r2 with
        | [] => [b0; b1; b2]
        | b3 :: r3 =>
          let cp :=
            N.lor (N.shiftl (N.land b0 7) 18)
              (N.lor (N.shiftl (N.land b1 63) 12)
                (N.lor (N.shiftl (N.land b2 63) 6) (N.land b3 63))) in
          let v := (cp - 65536)%N in
          (55296 + N.shiftr v 10)%N :: (56320 + N.land v 1023)%N :: utf16 r3
        end
      end
    end
  end.

Definition lit (s : string) : jsstring := utf16 (bytes s).
#[global] Arguments lit : simpl never.

(** [a === b] on strings. *)
Definition strictEq (a b : jsstring) : bool := bool_decide (a = b).

(** ECMAScript WhiteSpace and LineTerminator code points, the ones
    [String.prototype.trim] removes. *)
Definition isWhiteSpace (c : N) : bool :=
  ((9 <=? c) && (c <=? 13) || (c =? 32) || (c =? 160) || (c =? 5760)
   || (8192 <=? c) && (c <=? 8202) || (c =? 8232) || (c =? 8233)
   || (c =? 8239) || (c =? 8287) || (c =? 12288) || (c =? 65279))%N.

Fixpoint trimStart (s : jsstring) : jsstring :=
  match s with
  | c :: r => if isWhiteSpace c then trimStart r else s
  | [] => []
  end.

Definition trimEnd (s : jsstring) : jsstring :=
  reverse (trimStart (reverse s)).

Definition trim (s : jsstring) : jsstring := trimEnd (trimStart s).

Fixpoint startsWith (s p : jsstring) : bool :=
  match p, s with
  | [], _ => true
  | _ :: _, [] => false
  | a :: p', b :: s' => (a =? b)%N && startsWith s' p'
  end.

Definition endsWith (s p : jsstring) : bool :=
  startsWith (reverse s) (reverse p).

(** [s.substring(a, b)] for non-negative integer arguments: both are
    clamped to the length and swapped when [a > b]. *)
Definition substring (s : jsstring) (a b : nat) : jsstring :=
  let a' := a `min` length s in
  let b' := b `min` length s in
  let from := a' `min` b' in
  let to := a' `max` b' in
  take (to - from) (drop from s).

(** [s.substring(a)]. *)
Definition substringFrom (s : jsstring) (a : nat) : jsstring :=
  substring s a (length s).

(** [s.split(',')[1]]: the text between the first and the second comma,
    [undefined] when there is no comma. *)
Fixpoint upToComma (s : jsstring) : jsstring :=
  match s with
  | [] => []
  | c :: r => if (c =? 44)%N then [] else c :: upToComma r
  end.

Fixpoint splitComma1 (s : jsstring) : option jsstring :=
  match s with
  | [] => None
  | c :: r => if (c =? 44)%N then Some (upToComma r) else splitComma1 r
  end.

(** A string is truthy when it is not empty; [undefined] and [null] are
    falsy. *)
Definition truthy (o : option jsstring) : bool :=
  match o with
  | Some (_ :: _) => true
  | _ => false
  end.

Definition undefinedText : jsstring := Eval vm_compute in lit "undefined".

(** [String(v)] as a template literal computes it for a value that is a
    string or [undefined]. *)
Definition toStr (o : option jsstring) : jsstring :=
  match o with
  | Some s => s
  | None => undefinedText
  end.

(** [[...new Set(l)]]: the distinct values of [l] in insertion order. *)
Definition setAdd {A} `{EqDecision A} (acc : list A) (x : A) : list A :=
  if bool_decide (x ∈ acc) then acc else acc ++ [x].

Definition setOf {A} `{EqDecision A} (l : list A) : list A :=
  foldl setAdd [] l.

End JsString.
Import JsString.

(** ** constants.ts *)

Module Constants.

Definition AVAILABLE_MODELS : list jsstring :=
  Eval vm_compute in
  [lit "gemini-2.5-flash"; lit "gemini-2.5-pro"; lit "gemini-3-pro-preview"].

Definition defaultModel : jsstring := Eval vm_compute in lit "gemini-2.5-flash".

(** What [localStorage.getItem('preferredAiModel')] does: it throws (the
    storage is unavailable), or returns [null] or the stored string. *)
Inductive StorageRead :=
| ReadThrows
| ReadReturns (v : option jsstring).

(** [AVAILABLE_MODELS.includes(s)]. *)
Definition includes (l : list jsstring) (s : jsstring) : bool :=
  existsb (strictEq s) l.

Definition getInitialModel (getItem : StorageRead) : jsstring :=
  match getItem with
  | ReadReturns savedModel =>
    match savedModel with
    | Some s =>
      if truthy savedModel && includes AVAILABLE_MODELS s then s
      else defaultModel
    | None => defaultModel
    end
  | ReadThrows => defaultModel
  end.

End Constants.
Import Constants.

(** ** types.ts, as the code uses it *)

Module Types.

(** An uploaded file: its media type and what [FileReader.readAsDataURL]
    leaves in [reader.result] ([None] when that is not a string). *)
Record File := {
  file_type : jsstring;
  file_dataURL : option jsstring;
}.

Record FileContent := {
  mimeType : jsstring;
  data : option jsstring;
}.

Record StudentData := {
  id : jsstring;
  name : jsstring;
  email : jsstring;
  solutionFiles : list File;
  reportTemplate : jsstring;
}.

Record FormData := {
  examInfo : jsstring;
  scoringCriteria : jsstring;
  examMaterials : list File;
  students : list StudentData;
  model : jsstring;
}.

Record ReportData := {
  htmlContent : jsstring;
  studentEmail : jsstring;
  rd_studentName : jsstring;
  rd_examInfo : jsstring;
  generationDate : jsstring;
}.

(** [ReportResult] of App.tsx. *)
Inductive Status := loading | done | error.

Record ReportResult := {
  status : Status;
  rr_data : option ReportData;
  rr_error : option jsstring;
  studentName : jsstring;
  studentId : jsstring;
  progressMessage : option jsstring;
}.

Record Progress := {
  current : nat;
  total : nat;
}.

(** A thrown value: an [Error] with its message, or anything else. *)
Inductive Exn :=
| JsError (message : jsstring)
| JsOther.

Definition typeErrorHead : jsstring :=
  Eval vm_compute in lit "Cannot read properties of undefined (reading '".

Definition typeErrorTail : jsstring := Eval vm_compute in lit "')".

(** The [TypeError] thrown when the property [property] is read on
    [undefined]. A [TypeError] is an [Error]; the wording of its message
    is the engine's (here that of V8). *)
Definition typeError (property : jsstring) : Exn :=
  JsError (typeErrorHead ++ property ++ typeErrorTail).

Definition trimName : jsstring := Eval vm_compute in lit "trim".

Definition startsWithName : jsstring := Eval vm_compute in lit "startsWith".

#[global] Instance Status_eq_dec : EqDecision Status.
Proof. solve_decision. Defined.
#[global] Instance File_eq_dec : EqDecision File.
Proof. solve_decision. Defined.
#[global] Instance FileContent_eq_dec : EqDecision FileContent.
Proof. solve_decision. Defined.
#[global] Instance ReportData_eq_dec : EqDecision ReportData.
Proof. solve_decision. Defined.
#[global] Instance ReportResult_eq_dec : EqDecision ReportResult.
Proof. solve_decision. Defined.
#[global] Instance Progress_eq_dec : EqDecision Progress.
Proof. solve_decision. Defined.
#[global] Instance Exn_eq_dec : EqDecision Exn.
Proof. solve_decision. Defined.

End Types.
Import Types.

(** ** The generation service, seen from the client *)

Module Service.

(** The three prompts are template literals; a prompt is represented by
    its template and the values interpolated into it (the fixed
    instruction text is not reproduced). *)
Inductive Prompt :=
| SearchPrompt (examInfo : jsstring)
| GradePrompt (studentName examInfo scoringCriteria
               studentSpecificInstructions : jsstring)
| FormatPrompt (generationDate studentName examInfo rawReport : jsstring).

(** [contents] is either the prompt alone or a list of parts: the prompt
    text followed by inline documents. *)
Inductive Contents :=
| TextOnly (prompt : Prompt)
| Parts (prompt : Prompt) (inlineData : list FileContent).

Record Request := {
  req_model : jsstring;
  req_contents : Contents;
  req_googleSearch : bool;
}.

Record Web := { uri : option jsstring }.
Record Chunk := { web : option Web }.
Record GroundingMetadata := { groundingChunks : option (list Chunk) }.
Record Candidate := { groundingMetadata : option GroundingMetadata }.

(** What the code reads of a response of the SDK: [text], the text of
    the answer, which is [undefined] ([None]) when the answer has no text
    part, and the grounding chunks, which the code reaches through
    optional chaining. *)
Record Response := {
  text : option jsstring;
  candidates : option (list Candidate);
}.

(** What awaiting one [ai.models.generateContent] call amounts to: the
    promise rejects or resolves, after some time has passed. *)
Record Reply := {
  outcome : Exn + Response;
  elapsed : nat;
}.

(** The behaviour of the service: the reply to the [n]-th request. *)
Definition Behaviour := nat → Request → Reply.

#[global] Instance Prompt_eq_dec : EqDecision Prompt.
Proof. solve_decision. Defined.
#[global] Instance Contents_eq_dec : EqDecision Contents.
Proof. solve_decision. Defined.
#[global] Instance Request_eq_dec : EqDecision Request.
Proof. solve_decision. Defined.

End Service.
Import Service.

(** ** The world and the monad of effects *)

Module Effects.

(** The two per-student stages of the client. *)
Inductive Stage := Grade | Format.

(** How a call ends: it returns a value or throws. *)
Inductive Result (A : Type) :=
| Ok (a : A)
| Throw (e : Exn).
Arguments Ok {A} a.
Arguments Throw {A} e.

Inductive Event :=
| EvSetIsLoading (b : bool)
| EvSetError (e : option jsstring)
| EvSetProgress (p : Progress)
| EvSetResults (rs : list ReportResult)
| EvNewDate
| EvCall (f : Stage) (i : nat)
| EvReturn (f : Stage) (i : nat) (r : Result (option jsstring))
| EvGenerateContent (req : Request)
| EvConsoleError (studentName : jsstring) (e : Exn).

(** [EvSetProgress] and [EvSetResults] carry the new value of the state;
    [EvCall f i] and [EvReturn f i r] record that iteration [i] of the
    batch loop calls the client function of stage [f] and how that call
    ends; every event is stamped with the wall clock at which it
    happens. *)
Record World := {
  results : list ReportResult;
  progress : Progress;
  isLoading : bool;
  appError : option jsstring;
  clock : nat;
  requests : nat;
  trace : list (nat * Event);
}.

Definition M (A : Type) : Type := World → Result A * World.

Definition ret {A} (a : A) : M A := λ w, (Ok a, w).

Definition bind {A B} (m : M A) (k : A → M B) : M B :=
  λ w, match m w with
       | (Ok a, w') => k a w'
       | (Throw e, w') => (Throw e, w')
       end.

Definition throw {A} (e : Exn) : M A := λ w, (Throw e, w).

Definition tryCatch {A} (body : M A) (handler : Exn → M A) : M A :=
  λ w, match body w with
       | (Ok a, w') => (Ok a, w')
       | (Throw e, w') => handler e w'
       end.

Definition emit (ev : Event) (w : World) : World :=
  {| results := results w; progress := progress w; isLoading := isLoading w;
     appError := appError w; clock := clock w; requests := requests w;
     trace := trace w ++ [(clock w, ev)] |}.

Definition exec {A} (m : M A) (w : World) : World := snd (m w).

End Effects.
Import Effects.

Declare Scope js_scope.
Delimit Scope js_scope with js.
Notation "'do' x <- m ; k" := (bind m (λ x, k))
(at level 10, x name, m at level 100, k at level 200) : js_scope.
Open Scope js_scope.

(** ** The primitive effects *)

Section Primitives.

(** The behaviour of the generation service during the run. *)
Variable service : Behaviour.

(** [await ai.models.generateContent(req)]: the request is sent, time
    passes, and the call returns the response or throws. *)
Definition generateContent (req : Request) : M Response :=
  λ w,
    let reply := service (requests w) req in
    let w' := emit (EvGenerateContent req) w in
    let w'' :=
      {| results := results w'; progress := progress w';
         isLoading := isLoading w'; appError := appError w';
         clock := clock w' + elapsed reply; requests := S (requests w');
         trace := trace w' |} in
    match outcome reply with
    | inl e => (Throw e, w'')
    | inr response => (Ok response, w'')
    end.

(** [new Date()]: the reading of the wall clock. *)
Definition newDate : M nat := λ w, (Ok (clock w), emit EvNewDate w).

Definition setIsLoading (b : bool) : M unit :=
  λ w, (Ok tt,
        emit (EvSetIsLoading b)
          {| results := results w; progress := progress w; isLoading := b;
             appError := appError w; clock := clock w;
             requests := requests w; trace := trace w |}).

Definition setError (e : option jsstring) : M unit :=
  λ w, (Ok tt,
        emit (EvSetError e)
          {| results := results w; progress := progress w;
             isLoading := isLoading w; appError := e; clock := clock w;
             requests := requests w; trace := trace w |}).

(** [setProgress(prev => f(prev))]. *)
Definition setProgress (f : Progress → Progress) : M unit :=
  λ w, (Ok tt,
        emit (EvSetProgress (f (progress w)))
          {| results := results w; progress := f (progress w);
             isLoading := isLoading w; appError := appError w;
             clock := clock w; requests := requests w; trace := trace w |}).

(** [setResults(prev => f(prev))]. *)
Definition setResults (f : list ReportResult → list ReportResult) : M unit :=
  λ w, (Ok tt,
        emit (EvSetResults (f (results w)))
          {| results := f (results w); progress := progress w;
             isLoading := isLoading w; appError := appError w;
             clock := clock w; requests := requests w; trace := trace w |}).

Definition consoleError (studentName : jsstring) (e : Exn) : M unit :=
  λ w, (Ok tt, emit (EvConsoleError studentName e) w).

(** The call [m] of the client function of stage [f], made by iteration
    [i] of the loop, with its start and its end written to the trace;
    the call itself is left as it is. The value returned is written as
    the string it is, or as [undefined]. *)
Definition observe {A} (f : Stage) (i : nat) (shown : A → option jsstring)
    (m : M A) : M A :=
  λ w, match m (emit (EvCall f i) w) with
       | (r, w') =>
         (r, emit (EvReturn f i match r with
                                | Ok a => Ok (shown a)
                                | Throw e => Throw e
                                end) w')
       end.

End Primitives.

(** ** services/geminiService.ts *)

Module GeminiService.

Record CommonData := {
  cd_examInfo : jsstring;
  cd_scoringCriteria : jsstring;
  cd_model : jsstring;
  cd_examMaterials : list File;
}.

Record StudentInput := {
  si_name : jsstring;
  si_solutionFiles : list File;
  si_reportTemplate : jsstring;
}.

Record FormatData := {
  fd_examInfo : jsstring;
  fd_model : jsstring;
}.

(** The promise always resolves: with the part of the data URL after the
    first comma, or with the empty string when the reader has no string
    result. *)
Definition fileToGenerativePart (file : File) : FileContent :=
  {| mimeType := file_type file;
     data := match file_dataURL file with
             | Some result => splitComma1 result
             | None => Some []
             end |}.

Definition referencesHeading : jsstring := Eval vm_compute in lit "

---
**참고 자료:**
".

Definition bullet : jsstring := Eval vm_compute in lit "- ".

Definition newline : jsstring := Eval vm_compute in lit "
".

(** [`- ${url}\n`] *)
Definition referenceLine (url : option jsstring) : jsstring :=
  bullet ++ toStr url ++ newline.

(** [response.candidates?.[0]?.groundingMetadata?.groundingChunks] *)
Definition groundingChunksOf (response : Response) : option (list Chunk) :=
  match candidates response with
  | Some (c :: _) =>
    match groundingMetadata c with
    | Some gm => groundingChunks gm
    | None => None
    end
  | _ => None
  end.

(** [chunk.web?.uri] *)
Definition chunkUri (chunk : Chunk) : option jsstring :=
  match web chunk with
  | Some w => uri w
  | None => None
  end.

(** Lines 52-66: the references section built from the grounding chunks. *)
Definition referencesOf (response : Response) : jsstring :=
  match groundingChunksOf response with
  | Some ((_ :: _) as chunks) =>
    let urls := filter (λ u, truthy u = true) (chunkUri <$> chunks) in
    let uniqueUrls := setOf urls in
    if decide (0 < length uniqueUrls)
    then foldl (λ references url, references ++ referenceLine url)
               referencesHeading uniqueUrls
    else []
  | _ => []
  end.

Definition validationMessage : jsstring :=
  Eval vm_compute in lit "시험 자료와 학생 풀이 파일은 필수입니다.".

Definition instructionsHead : jsstring := Eval vm_compute in lit "
    - Student-Specific Instructions:
    ".

Definition instructionsTail : jsstring := Eval vm_compute in lit "
    ".

Definition studentSpecificInstructionsOf (reportTemplate : jsstring) : jsstring :=
  if truthy (Some reportTemplate)
  then instructionsHead ++ reportTemplate ++ instructionsTail
  else [].

Definition htmlFence : jsstring := Eval vm_compute in lit "```html".

Definition fence : jsstring := Eval vm_compute in lit "```".

(** Lines 200-208: what is done to the response text of the formatting
    request before it is returned. *)
Definition stripFence (responseText : jsstring) : jsstring :=
  let html := responseText in
  let html := if startsWith html htmlFence
              then substringFrom html 7 else html in
  let html := if endsWith html fence
              then substring html 0 (length html - 3) else html in
  trim html.

Definition searchRequest (examInfo model : jsstring) : Request :=
  {| req_model := model;
     req_contents := TextOnly (SearchPrompt examInfo);
     req_googleSearch := true |}.

Section Client.

Variable service : Behaviour.

(** Line 68, [response.text.trim() + references], throws a [TypeError]
    when [response.text] is [undefined]. *)
Definition searchScoringCriteria (examInfo model : jsstring) : M jsstring :=
  do response <- generateContent service (searchRequest examInfo model);
  let references := referencesOf response in
  match text response with
  | Some generated => ret (trim generated ++ references)
  | None => throw (typeError trimName)
  end.

(** Line 148 returns [response.text] as it is: a string or [undefined]. *)
Definition gradeSolutionAndGenerateFeedback
    (commonData : CommonData) (studentData : StudentInput)
  : M (option jsstring) :=
  if decide (length (cd_examMaterials commonData) = 0
             ∨ length (si_solutionFiles studentData) = 0)
  then throw (JsError validationMessage)
  else
    let examMaterialsParts :=
      fileToGenerativePart <$> cd_examMaterials commonData in
    let studentSolutionParts :=
      fileToGenerativePart <$> si_solutionFiles studentData in
    let studentSpecificInstructions :=
      studentSpecificInstructionsOf (si_reportTemplate studentData) in
    do response <- generateContent service
      {| req_model := cd_model commonData;
         req_contents :=
           Parts (GradePrompt (si_name studentData) (cd_examInfo commonData)
                    (cd_scoringCriteria commonData)
                    studentSpecificInstructions)
                 (examMaterialsParts ++ studentSolutionParts);
         req_googleSearch := false |};
    ret (text response).

(** [rawReport] is what the grading function returned, a string or
    [undefined]; the template literal of the prompt turns it into a
    string. Line 201, [html.startsWith(...)], throws a [TypeError] when
    [response.text] is [undefined]. *)
Definition formatReportToHtml (rawReport : option jsstring)
    (commonData : FormatData) (studentName generationDate : jsstring)
  : M jsstring :=
  do response <- generateContent service
    {| req_model := fd_model commonData;
       req_contents :=
         TextOnly (FormatPrompt generationDate studentName
                     (fd_examInfo commonData) (toStr rawReport));
       req_googleSearch := false |};
  match text response with
  | Some html => ret (stripFence html)
  | None => throw (typeError startsWithName)
  end.

End Client.

End GeminiService.
Import GeminiService.

(** ** App.tsx: handleGenerateReport *)

Module App.

Definition pendingMessage : jsstring :=
  Eval vm_compute in lit "대기 중...".
Definition analyzingMessage : jsstring :=
  Eval vm_compute in lit "AI가 답안 분석 중...".
Definition formattingMessage : jsstring :=
  Eval vm_compute in lit "보고서 생성 중...".
Definition unknownErrorMessage : jsstring :=
  Eval vm_compute in lit "알 수 없는 오류가 발생했습니다.".

(** Line 35: the record a student starts with. *)
Definition initialResult (s : StudentData) : ReportResult :=
  {| status := loading; rr_data := None; rr_error := None;
     studentName := name s; studentId := id s;
     progressMessage := Some pendingMessage |}.

(** [{ ...r, progressMessage: msg }] *)
Definition withProgressMessage (msg : jsstring) (r : ReportResult) : ReportResult :=
  {| status := status r; rr_data := rr_data r; rr_error := rr_error r;
     studentName := studentName r; studentId := studentId r;
     progressMessage := Some msg |}.

(** [{ ...r, status: 'done', data: reportData, progressMessage: undefined }] *)
Definition withDone (reportData : ReportData) (r : ReportResult) : ReportResult :=
  {| status := done; rr_data := Some reportData; rr_error := rr_error r;
     studentName := studentName r; studentId := studentId r;
     progressMessage := None |}.

(** [{ ...r, status: 'error', error: message, progressMessage: undefined }] *)
Definition withError (message : jsstring) (r : ReportResult) : ReportResult :=
  {| status := error; rr_data := rr_data r; rr_error := Some message;
     studentName := studentName r; studentId := studentId r;
     progressMessage := None |}.

(** [prev.map(r => r.studentId === sid ? upd(r) : r)] *)
Definition forStudent (sid : jsstring) (upd : ReportResult → ReportResult)
    (prev : list ReportResult) : list ReportResult :=
  (λ r, if strictEq (studentId r) sid then upd r else r) <$> prev.

(** [e instanceof Error ? e.message : '...'] *)
Definition messageOf (e : Exn) : jsstring :=
  match e with
  | JsError message => message
  | JsOther => unknownErrorMessage
  end.

Definition commonDataOf (formData : FormData) : CommonData :=
  {| cd_examInfo := examInfo formData;
     cd_scoringCriteria := scoringCriteria formData;
     cd_model := model formData;
     cd_examMaterials := examMaterials formData |}.

Section Handler.

Variable service : Behaviour.

(** [d.toLocaleString('ko-KR')], as a function of the clock reading. *)
Variable toLocaleString : nat → jsstring.

Variable formData : FormData.

Let commonData := commonDataOf formData.

(** Lines 49-81, the [try] block. *)
Definition tryBlock (i : nat) (student : StudentData) : M unit :=
  do date <- newDate;
  let generationDate := toLocaleString date in
  do _ <- setResults (forStudent (id student)
                        (withProgressMessage analyzingMessage));
  do rawReport <- observe Grade i (λ raw, raw)
    (gradeSolutionAndGenerateFeedback service commonData
       {| si_name := name student;
          si_solutionFiles := solutionFiles student;
          si_reportTemplate := reportTemplate student |});
  do _ <- setResults (forStudent (id student)
                        (withProgressMessage formattingMessage));
  do htmlReport <- observe Format i Some
    (formatReportToHtml service rawReport
       {| fd_examInfo := cd_examInfo commonData;
          fd_model := cd_model commonData |}
       (name student) generationDate);
  let reportData :=
    {| htmlContent := htmlReport;
       studentEmail := email student;
       rd_studentName := name student;
       rd_examInfo := cd_examInfo commonData;
       generationDate := generationDate |} in
  setResults (forStudent (id student) (withDone reportData)).

(** Lines 83-87, the [catch] block. *)
Definition catchBlock (student : StudentData) (e : Exn) : M unit :=
  do _ <- consoleError (name student) e;
  let message := messageOf e in
  setResults (forStudent (id student) (withError message)).

(** Lines 45-87, the body of the loop at index [i]. *)
Definition loopBody (i : nat) (student : StudentData) : M unit :=
  do _ <- setProgress (λ prev, {| current := i + 1; total := total prev |});
  tryCatch (tryBlock i student) (catchBlock student).

(** Lines 44-88: [for (let i = ...; i < studentsToProcess.length; i++)],
    entered at index [i] with the students from [i] on still to do. *)
Fixpoint forLoop (i : nat) (rest : list StudentData) : M unit :=
  match rest with
  | [] => ret tt
  | student :: rest' =>
    do _ <- loopBody i student;
    forLoop (S i) rest'
  end.

(** Lines 31-35. *)
Definition prologue : M unit :=
  do _ <- setIsLoading true;
  do _ <- setError None;
  let studentsToProcess := students formData in
  do _ <- setProgress (λ _, {| current := 0;
                               total := length studentsToProcess |});
  setResults (λ _, initialResult <$> studentsToProcess).

Definition handleGenerateReport : M unit :=
  do _ <- prologue;
  do _ <- forLoop 0 (students formData);
  setIsLoading false.

End Handler.

(** The state of [App] when it is mounted (lines 25-28), at time [t0]. *)
Definition initialWorld (t0 : nat) : World :=
  {| results := []; progress := {| current := 0; total := 0 |};
     isLoading := false; appError := None;
     clock := t0; requests := 0; trace := [] |}.

(** The world a run starts in: the state [w0] that whatever came before
    has left, with an empty trace, so that the trace of the final world is
    the trace of this run. *)
Definition starting (w0 : World) : World :=
  {| results := results w0; progress := progress w0;
     isLoading := isLoading w0; appError := appError w0;
     clock := clock w0; requests := requests w0; trace := [] |}.

(** The world the loop of a run starts in. *)
Definition afterPrologue (formData : FormData) (w0 : World) : World :=
  exec (prologue formData) (starting w0).

(** The world a run of the handler ends in. *)
Definition run (service : Behaviour) (toLocaleString : nat → jsstring)
    (formData : FormData) (w0 : World) : World :=
  exec (handleGenerateReport service toLocaleString formData) (starting w0).

End App.
Import App.

(** ** Concrete rosters and service behaviours *)

Module Examples.

Definition pngFile : File :=
  {| file_type := lit "image/png";
     file_dataURL := Some (lit "data:image/png;base64,iVBORw0KGgo=") |}.

Definition studentA : StudentData :=
  {| id := lit "a"; name := lit "Ahn"; email := lit "ahn@example.com";
     solutionFiles := [pngFile]; reportTemplate := [] |}.

(** A student without solution documents. *)
Definition studentB : StudentData :=
  {| id := lit "b"; name := lit "Bae"; email := lit "bae@example.com";
     solutionFiles := []; reportTemplate := [] |}.

Definition studentC : StudentData :=
  {| id := lit "c"; name := lit "Cho"; email := lit "cho@example.com";
     solutionFiles := [pngFile]; reportTemplate := lit "be brief" |}.

(** A student who carries the id of [studentB]. *)
Definition studentB' : StudentData :=
  {| id := lit "b"; name := lit "Bang"; email := lit "bang@example.com";
     solutionFiles := [pngFile]; reportTemplate := [] |}.

Definition formOf (roster : list StudentData) : FormData :=
  {| examInfo := lit "2024 math essay";
     scoringCriteria := lit "rigor 10";
     examMaterials := [pngFile];
     students := roster;
     model := lit "gemini-2.5-flash" |}.

(** An answer made of the text [t], without grounding. *)
Definition plainResponse (t : jsstring) : Response :=
  {| text := Some t;
     candidates := Some [ {| groundingMetadata := None |} ] |}.

(** Every request is answered with the same text after one time unit. *)
Definition answering (t : jsstring) : Behaviour :=
  λ _ _, {| outcome := inr (plainResponse t); elapsed := 1 |}.

(** Every request fails with a transport error after one time unit. *)
Definition failing : Behaviour :=
  λ _ _, {| outcome := inl (JsError (lit "fetch failed")); elapsed := 1 |}.

(** Only the first request fails. *)
Definition failingOnce : Behaviour :=
  λ n _, match n with
         | 0 => {| outcome := inl (JsError (lit "fetch failed")); elapsed := 1 |}
         | _ => {| outcome := inr (plainResponse (lit "<p>7/10</p>"));
                   elapsed := 1 |}
         end.

(** The clock reading [t] rendered as the letter t and a digit. *)
Definition showTime (t : nat) : jsstring := lit "t" ++ [(48 + N.of_nat t)%N].

Definition chunkOf (u : option jsstring) : Chunk :=
  {| web := Some {| uri := u |} |}.

Definition groundedResponse (t : jsstring) (chunks : list Chunk) : Response :=
  {| text := Some t;
     candidates :=
       Some [ {| groundingMetadata :=
                   Some {| groundingChunks := Some chunks |} |} ] |}.

(** A formatted report wrapped in a code fence, with a newline after the
    closing fence. *)
Definition fencedThenNewline : jsstring := Eval vm_compute in lit "```html
<div>ok</div>
```
".

Definition fenced : jsstring := Eval vm_compute in lit "```html
<div>ok</div>
```".

(** Three references to two sources, and one reference without a URI. *)
Definition someChunks : list Chunk :=
  [ chunkOf (Some (lit "https://a.example"));
    chunkOf None;
    chunkOf (Some (lit "https://b.example"));
    chunkOf (Some (lit "https://a.example")) ].

End Examples.
Import Examples.

(** ** Reading a trace *)

Module Observations.

(** The loop index an event of a client call belongs to. *)
Definition indexOf (ev : Event) : option nat :=
  match ev with
  | EvCall _ i | EvReturn _ i _ => Some i
  | _ => None
  end.

Definition progressOf (te : nat * Event) : option Progress :=
  match te.2 with
  | EvSetProgress p => Some p
  | _ => None
  end.

(** The successive values of the [progress] state. *)
Definition progressHistory (tr : list (nat * Event)) : list Progress :=
  omap progressOf tr.

Definition recordOf (k : nat) (te : nat * Event) : option ReportResult :=
  match te.2 with
  | EvSetResults rs => rs !! k
  | _ => None
  end.

(** The successive values of the record at position [k] of [results]. *)
Definition recordHistory (k : nat) (tr : list (nat * Event)) : list ReportResult :=
  omap (recordOf k) tr.

Definition isRequest (te : nat * Event) : bool :=
  match te.2 with
  | EvGenerateContent _ => true
  | _ => false
  end.

(** The states of the specification's ledger, read off a record: the
    three non-terminal ones are the three progress messages of a loading
    record. *)
Inductive Phase := Pending | Analyzing | Formatting | Done | Failed.

Definition phaseOf (r : ReportResult) : option Phase :=
  match status r, progressMessage r with
  | loading, Some m =>
    if strictEq m pendingMessage then Some Pending
    else if strictEq m analyzingMessage then Some Analyzing
    else if strictEq m formattingMessage then Some Formatting
    else None
  | done, None => Some Done
  | error, None => Some Failed
  | _, _ => None
  end.

Definition terminal (r : ReportResult) : Prop :=
  status r = done ∨ status r = error.

(** An update that keeps the identity of the record it is applied to. *)
Definition keepsId (upd : ReportResult → ReportResult) : Prop :=
  ∀ r, studentId (upd r) = studentId r.

(** The transitions of the state machine. *)
Inductive next : Phase → Phase → Prop :=
| next_analyze : next Pending Analyzing
| next_format : next Analyzing Formatting
| next_grade_failed : next Analyzing Failed
| next_done : next Formatting Done
| next_format_failed : next Formatting Failed.

(** One update of [results], seen at one record: the record is left as it
    is, or it moves along a transition. *)
Definition stepOk (r r' : ReportResult) : Prop :=
  r' = r ∨ ∃ p p', phaseOf r = Some p ∧ phaseOf r' = Some p' ∧ next p p'.

Fixpoint chainFrom (r : ReportResult) (l : list ReportResult) : Prop :=
  match l with
  | [] => True
  | r' :: l' => stepOk r r' ∧ chainFrom r' l'
  end.

Section Turn.

Variable service : Behaviour.
Variable toLocaleString : nat → jsstring.
Variable formData : FormData.
Variable i : nat.
Variable student : StudentData.
Variable w : World.

Definition gradeRequest : Request :=
  {| req_model := model formData;
     req_contents :=
       Parts (GradePrompt (name student) (examInfo formData)
                (scoringCriteria formData)
                (studentSpecificInstructionsOf (reportTemplate student)))
             ((fileToGenerativePart <$> examMaterials formData)
              ++ (fileToGenerativePart <$> solutionFiles student));
     req_googleSearch := false |}.

Definition formatRequest (rawReport : option jsstring) : Request :=
  {| req_model := model formData;
     req_contents :=
       TextOnly (FormatPrompt (toLocaleString (clock w)) (name student)
                   (examInfo formData) (toStr rawReport));
     req_googleSearch := false |}.

Definition missingInput : Prop :=
  length (examMaterials formData) = 0 ∨ length (solutionFiles student) = 0.

Definition analyzingResults : list ReportResult :=
  forStudent (id student) (withProgressMessage analyzingMessage) (results w).

Definition formattingResults : list ReportResult :=
  forStudent (id student) (withProgressMessage formattingMessage)
    analyzingResults.

Definition failedResults (e : Exn) (rs : list ReportResult) : list ReportResult :=
  forStudent (id student) (withError (messageOf e)) rs.

Definition reportDataOf (htmlReport : jsstring) : ReportData :=
  {| htmlContent := htmlReport;
     studentEmail := email student;
     rd_studentName := name student;
     rd_examInfo := examInfo formData;
     generationDate := toLocaleString (clock w) |}.

Definition doneResults (htmlReport : jsstring) : list ReportResult :=
  forStudent (id student) (withDone (reportDataOf htmlReport)) formattingResults.

(** The events every turn starts with. *)
Definition opening : list (nat * Event) :=
  [ (clock w, EvSetProgress {| current := i + 1; total := total (progress w) |});
    (clock w, EvNewDate);
    (clock w, EvSetResults analyzingResults);
    (clock w, EvCall Grade i) ].

(** The events of a [catch]. *)
Definition catching (f : Stage) (t : nat) (e : Exn) (rs : list ReportResult)
  : list (nat * Event) :=
  [ (t, EvReturn f i (Throw e));
    (t, EvConsoleError (name student) e);
    (t, EvSetResults (failedResults e rs)) ].

(** The world a turn ends in. *)
Definition turnEnd (rs : list ReportResult) (t q : nat)
    (δ : list (nat * Event)) : World :=
  {| results := rs;
     progress := {| current := i + 1; total := total (progress w) |};
     isLoading := isLoading w; appError := appError w;
     clock := t; requests := q; trace := trace w ++ δ |}.

(** How the formatting call ends for a reply of the service: it throws
    what the service threw, or a [TypeError] when the answer has no text,
    or returns the text of the answer without its fences. *)
Definition formatted (reply : Reply) : Exn + jsstring :=
  match outcome reply with
  | inl e => inl e
  | inr response =>
    match text response with
    | Some html => inr (stripFence html)
    | None => inl (typeError startsWithName)
    end
  end.

(** The four ways the turn of [student], started in [w] at index [i], can
    go: [Turn δ w'] when it appends [δ] to the trace and ends in [w']. *)
Inductive Turn : list (nat * Event) → World → Prop :=
| turn_missing_input δ :
    missingInput →
    δ = opening
        ++ catching Grade (clock w) (JsError validationMessage) analyzingResults →
    Turn δ (turnEnd (failedResults (JsError validationMessage) analyzingResults)
              (clock w) (requests w) δ)
| turn_grade_failed e t δ :
    ¬ missingInput →
    outcome (service (requests w) gradeRequest) = inl e →
    t = clock w + elapsed (service (requests w) gradeRequest) →
    δ = opening ++ [(clock w, EvGenerateContent gradeRequest)]
        ++ catching Grade t e analyzingResults →
    Turn δ (turnEnd (failedResults e analyzingResults) t (S (requests w)) δ)
| turn_format_failed graded e t t' δ :
    ¬ missingInput →
    outcome (service (requests w) gradeRequest) = inr graded →
    t = clock w + elapsed (service (requests w) gradeRequest) →
    formatted (service (S (requests w)) (formatRequest (text graded))) = inl e →
    t' = t + elapsed (service (S (requests w)) (formatRequest (text graded))) →
    δ = opening ++ [(clock w, EvGenerateContent gradeRequest);
                    (t, EvReturn Grade i (Ok (text graded)));
                    (t, EvSetResults formattingResults);
                    (t, EvCall Format i);
                    (t, EvGenerateContent (formatRequest (text graded)))]
        ++ catching Format t' e formattingResults →
    Turn δ (turnEnd (failedResults e formattingResults) t' (S (S (requests w))) δ)
| turn_done graded html t t' δ :
    ¬ missingInput →
    outcome (service (requests w) gradeRequest) = inr graded →
    t = clock w + elapsed (service (requests w) gradeRequest) →
    formatted (service (S (requests w)) (formatRequest (text graded)))
      = inr html →
    t' = t + elapsed (service (S (requests w)) (formatRequest (text graded))) →
    δ = opening ++ [(clock w, EvGenerateContent gradeRequest);
                    (t, EvReturn Grade i (Ok (text graded)));
                    (t, EvSetResults formattingResults);
                    (t, EvCall Format i);
                    (t, EvGenerateContent (formatRequest (text graded)));
                    (t', EvReturn Format i (Ok (Some html)));
                    (t', EvSetResults (doneResults html))] →
    Turn δ (turnEnd (doneResults html) t' (S (S (requests w))) δ).

End Turn.

(** The loop from index [i] over the students [rest], turn after turn:
    [Loop i rest w δ w'] when it appends [δ] to the trace of [w] and ends
    in [w']. *)
Inductive Loop (service : Behaviour) (toLocaleString : nat → jsstring)
    (formData : FormData)
  : nat → list StudentData → World → list (nat * Event) → World → Prop :=
| loop_nil i w : Loop service toLocaleString formData i [] w [] w
| loop_cons i student rest w δ1 w1 δ2 w2 :
    Turn service toLocaleString formData i student w δ1 w1 →
    Loop service toLocaleString formData (S i) rest w1 δ2 w2 →
    Loop service toLocaleString formData i (student :: rest) w (δ1 ++ δ2) w2.

End Observations.
Import Observations.

(** ** Statements of the specification that the code is compared with *)

Module AsStated.

(** "current equals total exactly when the batch ends": once [progress]
    has been given a value with [current = total], no client call of any
    student follows. *)
Definition reachesTotalOnlyAtEnd (tr : list (nat * Event)) : Prop :=
  ∀ pre t p post,
    tr = pre ++ (t, EvSetProgress p) :: post →
    current p = total p →
    ∀ te, te ∈ post → indexOf te.2 = None.

(** "a freshly captured generation timestamp" at the transition to Done:
    the date stored in the record of student [k] is the reading of the
    clock at the update that makes the record [done]. *)
Definition dateReadAtDone (toLocaleString : nat → jsstring) (k : nat)
    (tr : list (nat * Event)) : Prop :=
  ∀ t rs r d,
    (t, EvSetResults rs) ∈ tr → rs !! k = Some r →
    status r = done → rr_data r = Some d →
    generationDate d = toLocaleString t.

(** "a terminal record never transitions again": in the history of the
    record at position [k], a terminal value is only ever followed by
    itself. *)
Definition neverTransitionsAgain (k : nat) (tr : list (nat * Event)) : Prop :=
  ∀ l1 r r' l2,
    recordHistory k tr = l1 ++ r :: r' :: l2 → terminal r → r' = r.

(** "transition called on an already-terminal id fails loudly": in the
    state [w], an update of the record of [sid] made when that record is
    terminal throws. *)
Definition failsLoudlyOnTerminal (w : World) : Prop :=
  ∀ sid upd r,
    r ∈ results w → studentId r = sid → terminal r →
    ∃ e w', setResults (forStudent sid upd) w = (Throw e, w').

(** "fails with ServiceError on ... empty-response conditions": the
    search never returns an empty criteria text. *)
Definition neverReturnsEmpty (service : Behaviour) : Prop :=
  ∀ examInfo model w criteria w',
    searchScoringCriteria service examInfo model w = (Ok criteria, w') →
    criteria ≠ [].

(** The sources of a response, as the specification lists them: the URI
    of every source reference that has one, in the order of the response.
    The source references of a response are the grounding chunks of its
    first candidate, and the URI of a reference is that of its web
    page. *)
Definition sourceOf (reference : Chunk) : option jsstring :=
  match reference with
  | {| web := Some {| uri := Some (c :: u) |} |} => Some (c :: u)
  | _ => None
  end.

Definition sourceReferences (response : Response) : list Chunk :=
  match response with
  | {| candidates :=
         Some ({| groundingMetadata :=
                    Some {| groundingChunks := Some references |} |} :: _) |} =>
    references
  | _ => []
  end.

Definition sources (response : Response) : list jsstring :=
  omap sourceOf (sourceReferences response).

Definition heading : jsstring := Eval vm_compute in lit "

---
**참고 자료:**
".

Definition dash : jsstring := Eval vm_compute in lit "- ".

Definition lineEnd : jsstring := Eval vm_compute in lit "
".

(** The references section for the URIs [listed]: nothing when there is
    none, else the fixed heading followed by one line per URI. *)
Definition referencesSection (listed : list jsstring) : jsstring :=
  match listed with
  | [] => []
  | _ => heading ++ concat ((λ u, dash ++ u ++ lineEnd) <$> listed)
  end.

(** [seen] without its duplicates, in first-seen order: every element is
    kept where it is seen first and dropped where it is seen again. *)
Fixpoint firstSeen (seen : list jsstring) : list jsstring :=
  match seen with
  | [] => []
  | u :: later => u :: filter (λ v, v ≠ u) (firstSeen later)
  end.

(** [listed] is [seen] without its duplicates, in first-seen order: each
    element of [seen] is listed once, and what is listed before an
    element is what was seen before its first occurrence. *)
Definition firstSeenOrder (listed seen : list jsstring) : Prop :=
  NoDup listed
  ∧ (∀ u, u ∈ listed ↔ u ∈ seen)
  ∧ ∀ before u after,
      listed = before ++ u :: after →
      ∃ earlier later,
        seen = earlier ++ u :: later
        ∧ (u ∉ earlier)
        ∧ (∀ v, v ∈ before ↔ v ∈ earlier).

End AsStated.
Import AsStated.

(** ** App.tsx: the other handlers *)

Module AppHandlers.

(** [Partial<FormData>]: a field is [None] when its key is absent. *)
Record PartialFormData := {
  p_examInfo : option jsstring;
  p_scoringCriteria : option jsstring;
  p_examMaterials : option (list File);
  p_students : option (list StudentData);
  p_model : option jsstring;
}.

Definition noChange : PartialFormData :=
  {| p_examInfo := None; p_scoringCriteria := None; p_examMaterials := None;
     p_students := None; p_model := None |}.

(** [{ ...prev, ...newFormData }] *)
Definition mergeForm (prev : FormData) (newFormData : PartialFormData) : FormData :=
  {| examInfo := default (examInfo prev) (p_examInfo newFormData);
     scoringCriteria :=
       default (scoringCriteria prev) (p_scoringCriteria newFormData);
     examMaterials := default (examMaterials prev) (p_examMaterials newFormData);
     students := default (students prev) (p_students newFormData);
     model := default (model prev) (p_model newFormData) |}.

(** [localStorage]: its items, whether [setItem] throws ([denied]: the
    storage is full or refuses writes) and whether [getItem] throws
    ([unreadable]); the two are independent. *)
Record LocalStorage := {
  denied : bool;
  unreadable : bool;
  items : gmap jsstring jsstring;
}.

(** [localStorage.setItem(key, value)]; [None] when it throws. *)
Definition setItem (key value : jsstring) (ls : LocalStorage)
  : option LocalStorage :=
  if denied ls then None
  else Some {| denied := false; unreadable := unreadable ls;
               items := <[key := value]> (items ls) |}.

(** [localStorage.getItem(key)]. *)
Definition getItem (key : jsstring) (ls : LocalStorage) : StorageRead :=
  if unreadable ls then ReadThrows else ReadReturns (items ls !! key).

Definition preferredAiModelKey : jsstring :=
  Eval vm_compute in lit "preferredAiModel".

(** The form of [App], the storage of the browser, and how many times
    [console.error] was called by [handleFormChange]. *)
Record Session := {
  ss_formData : FormData;
  ss_storage : LocalStorage;
  ss_errorsLogged : nat;
}.

(** constants.ts lines 19-25: [initialFormData], for the storage the
    session starts with. *)
Definition initialFormData (ls : LocalStorage) : FormData :=
  {| examInfo := []; scoringCriteria := []; examMaterials := [];
     students := [];
     model := getInitialModel (getItem preferredAiModelKey ls) |}.

(** App.tsx lines 114-124. *)
Definition handleFormChange (newFormData : PartialFormData) (s : Session)
  : Session :=
  let s1 :=
    if truthy (p_model newFormData) then
      match setItem preferredAiModelKey (toStr (p_model newFormData))
              (ss_storage s) with
      | Some ls =>
        {| ss_formData := ss_formData s; ss_storage := ls;
           ss_errorsLogged := ss_errorsLogged s |}
      | None =>
        {| ss_formData := ss_formData s; ss_storage := ss_storage s;
           ss_errorsLogged := S (ss_errorsLogged s) |}
      end
    else s in
  {| ss_formData := mergeForm (ss_formData s1) newFormData;
     ss_storage := ss_storage s1;
     ss_errorsLogged := ss_errorsLogged s1 |}.

(** App.tsx line 126:
    [formData.students[progress.current - 1]?.name || '']. *)
Definition currentProcessingStudentName (formData : FormData)
    (progress : Progress) : jsstring :=
  match current progress with
  | 0 => []
  | S i =>
    match students formData !! i with
    | Some student => if truthy (Some (name student)) then name student else []
    | None => []
    end
  end.

Definition searchErrorPrefix : jsstring := Eval vm_compute in lit "검색 오류: ".

Definition searchErrorFallback : jsstring :=
  Eval vm_compute in lit "채점 기준을 검색하는 중 오류가 발생했습니다.".

(** What [handleSearchCriteria] works on: the form, the world of the
    service and of the [error] state, the alerts shown, the values given
    to [console.error], and the search button that [document.querySelector]
    finds ([None] when there is none), with its [disabled] property. *)
Record Page := {
  pg_formData : FormData;
  pg_world : World;
  pg_alerts : list jsstring;
  pg_console : list Exn;
  pg_searchButton : option bool;
}.

(** App.tsx lines 93-112. The form is not edited while the search is
    pending, so the [prev] of the update of line 104 is [formData]. *)
Definition handleSearchCriteria (service : Behaviour) (pg : Page) : Page :=
  let formData := pg_formData pg in
  if negb (truthy (Some (examInfo formData))) then pg
  else
    let searchButton := (λ _, true) <$> pg_searchButton pg in
    let w1 := exec (setError None) (pg_world pg) in
    match searchScoringCriteria service (examInfo formData) (model formData)
            w1 with
    | (Ok criteria, w2) =>
      {| pg_formData :=
           {| examInfo := examInfo formData;
              scoringCriteria := criteria;
              examMaterials := examMaterials formData;
              students := students formData;
              model := model formData |};
         pg_world := w2;
         pg_alerts := pg_alerts pg;
         pg_console := pg_console pg;
         pg_searchButton := (λ _, false) <$> searchButton |}
    | (Throw e, w2) =>
      let errorMessage :=
        match e with
        | JsError message => message
        | JsOther => searchErrorFallback
        end in
      {| pg_formData := formData;
         pg_world := w2;
         pg_alerts := pg_alerts pg ++ [searchErrorPrefix ++ errorMessage];
         pg_console := pg_console pg ++ [e];
         pg_searchButton := (λ _, false) <$> searchButton |}
    end.

End AppHandlers.
Import AppHandlers.

(** ** components/InputForm.tsx *)

Module InputForm.

(** [FileInputField], lines 52-61: what [handleFileAdd] gives to
    [onFilesChange] for the files [selected] in the input ([None] when
    [e.target.files] is null: [onFilesChange] is not called). *)
Definition handleFileAdd (multiple : bool) (files : list File)
    (selected : option (list File)) : option (list File) :=
  match selected with
  | Some newFiles =>
    if multiple then Some (files ++ newFiles)
    else Some (match newFiles with
               | first :: _ => [first]
               | [] => []
               end)
  | None => None
  end.

(** Lines 63-65: [files.filter((_, index) => index !== indexToRemove)]. *)
Definition handleFileRemove (files : list File) (indexToRemove : nat)
  : list File :=
  snd <$> filter (λ p, p.1 ≠ indexToRemove) (zip (seq 0 (length files)) files).

Definition onlyStudents (l : list StudentData) : PartialFormData :=
  {| p_examInfo := None; p_scoringCriteria := None; p_examMaterials := None;
     p_students := Some l; p_model := None |}.

(** The student that [handleAddStudent] appends, with the id that
    [crypto.randomUUID()] returned. *)
Definition newStudent (uuid : jsstring) : StudentData :=
  {| id := uuid; name := []; email := []; solutionFiles := [];
     reportTemplate := [] |}.

(** Lines 196-200. *)
Definition handleAddStudent (formData : FormData) (uuid : jsstring)
  : PartialFormData :=
  onlyStudents (students formData ++ [newStudent uuid]).

(** Lines 202-206. *)
Definition handleRemoveStudent (formData : FormData) (sid : jsstring)
  : PartialFormData :=
  onlyStudents (filter (λ s, strictEq (id s) sid = false) (students formData)).

Inductive StudentField := NameField | EmailField | ReportTemplateField.

(** [{ ...s, [field]: value }] *)
Definition withField (field : StudentField) (value : jsstring)
    (s : StudentData) : StudentData :=
  match field with
  | NameField =>
    {| id := id s; name := value; email := email s;
       solutionFiles := solutionFiles s; reportTemplate := reportTemplate s |}
  | EmailField =>
    {| id := id s; name := name s; email := value;
       solutionFiles := solutionFiles s; reportTemplate := reportTemplate s |}
  | ReportTemplateField =>
    {| id := id s; name := name s; email := email s;
       solutionFiles := solutionFiles s; reportTemplate := value |}
  end.

(** [{ ...s, solutionFiles: files }] *)
Definition withSolutionFiles (files : list File) (s : StudentData)
  : StudentData :=
  {| id := id s; name := name s; email := email s;
     solutionFiles := files; reportTemplate := reportTemplate s |}.

(** [students.map(s => s.id === id ? upd(s) : s)] *)
Definition mapStudent (sid : jsstring) (upd : StudentData → StudentData)
    (l : list StudentData) : list StudentData :=
  (λ s, if strictEq (id s) sid then upd s else s) <$> l.

(** Lines 208-212. *)
Definition handleStudentChange (formData : FormData) (sid : jsstring)
    (field : StudentField) (value : jsstring) : PartialFormData :=
  onlyStudents (mapStudent sid (withField field value) (students formData)).

(** Lines 214-218. *)
Definition handleStudentFilesChange (formData : FormData) (sid : jsstring)
    (files : list File) : PartialFormData :=
  onlyStudents (mapStudent sid (withSolutionFiles files) (students formData)).

(** [s.trim() !== ''] *)
Definition notBlank (s : jsstring) : bool := negb (strictEq (trim s) []).

(** Lines 254-260. *)
Record Validation := {
  isExamInfoValid : bool;
  isScoringCriteriaValid : bool;
  areExamMaterialsValid : bool;
  areStudentsEntered : bool;
  areAllStudentsValid : bool;
}.

Definition validation (formData : FormData) : Validation :=
  {| isExamInfoValid := notBlank (examInfo formData);
     isScoringCriteriaValid := notBlank (scoringCriteria formData);
     areExamMaterialsValid := bool_decide (0 < length (examMaterials formData));
     areStudentsEntered := bool_decide (0 < length (students formData));
     areAllStudentsValid :=
       forallb (λ s, notBlank (name s) && notBlank (email s)
                     && bool_decide (0 < length (solutionFiles s)))
               (students formData) |}.

(** Line 262: [Object.values(validation).every(Boolean)]. *)
Definition isFormValid (formData : FormData) : bool :=
  let v := validation formData in
  forallb (λ b : bool, b)
    [isExamInfoValid v; isScoringCriteriaValid v; areExamMaterialsValid v;
     areStudentsEntered v; areAllStudentsValid v].

End InputForm.
Import InputForm.

(** ** components/ReportDisplay.tsx: the name of a saved report *)

Module ReportDisplay.

(** [text.replace(/\s+/g, '_')]: every maximal run of white space becomes
    one underscore; [inRun] tells that the code unit before was white
    space. *)
Fixpoint replaceSpaceRuns (inRun : bool) (text : jsstring) : jsstring :=
  match text with
  | [] => []
  | c :: r =>
    if isWhiteSpace c
    then (if inRun then replaceSpaceRuns true r
          else 95%N :: replaceSpaceRuns true r)
    else c :: replaceSpaceRuns false r
  end.

(** The class [a-zA-Z0-9ㄱ-ㅎㅏ-ㅣ가-힣_.-]. *)
Definition isSafe (c : N) : bool :=
  ((97 <=? c) && (c <=? 122) || (65 <=? c) && (c <=? 90)
   || (48 <=? c) && (c <=? 57)
   || (12593 <=? c) && (c <=? 12622) || (12623 <=? c) && (c <=? 12643)
   || (44032 <=? c) && (c <=? 55203)
   || (c =? 95) || (c =? 46) || (c =? 45))%N.

(** Lines 18-19: [sanitize]. *)
Definition sanitize (text : jsstring) : jsstring :=
  filter (λ c, isSafe c = true) (replaceSpaceRuns false text).

Inductive Extension := htmlExtension | pdfExtension.

Definition htmlText : jsstring := Eval vm_compute in lit "html".

Definition pdfText : jsstring := Eval vm_compute in lit "pdf".

Definition extensionText (extension : Extension) : jsstring :=
  match extension with
  | htmlExtension => htmlText
  | pdfExtension => pdfText
  end.

Definition underscore : jsstring := Eval vm_compute in lit "_".

Definition reportSuffix : jsstring := Eval vm_compute in lit "_평가보고서.".

(** Lines 17-25: [createSafeFilename]. *)
Definition createSafeFilename (reportData : ReportData) (extension : Extension)
  : jsstring :=
  let safeStudentName := sanitize (rd_studentName reportData) in
  let safeExamInfo := sanitize (rd_examInfo reportData) in
  safeExamInfo ++ underscore ++ safeStudentName ++ reportSuffix
  ++ extensionText extension.

End ReportDisplay.
Import ReportDisplay.

(** ** More observations of a run *)

Module Histories.

Definition requestOf (te : nat * Event) : option Request :=
  match te.2 with
  | EvGenerateContent req => Some req
  | _ => None
  end.

(** The requests sent to the service, in the order they are sent. *)
Definition requestsSent (tr : list (nat * Event)) : list Request :=
  omap requestOf tr.

Definition sameStage (f g : Stage) : bool :=
  match f, g with
  | Grade, Grade | Format, Format => true
  | _, _ => false
  end.

Definition callOf (f : Stage) (te : nat * Event) : option nat :=
  match te.2 with
  | EvCall g i => if sameStage g f then Some i else None
  | _ => None
  end.

(** The loop indices for which the client function of stage [f] is
    called, in the order of the calls. *)
Definition callsOf (f : Stage) (tr : list (nat * Event)) : list nat :=
  omap (callOf f) tr.

(** The loop indices of the calls and returns of the client functions. *)
Definition callIndices (tr : list (nat * Event)) : list nat :=
  omap (λ te, indexOf te.2) tr.

Definition loadingOf (te : nat * Event) : option bool :=
  match te.2 with
  | EvSetIsLoading b => Some b
  | _ => None
  end.

(** The successive values of the [isLoading] state. *)
Definition loadingHistory (tr : list (nat * Event)) : list bool :=
  omap loadingOf tr.

Definition errorOf (te : nat * Event) : option (option jsstring) :=
  match te.2 with
  | EvSetError e => Some e
  | _ => None
  end.

(** The successive values of the [error] state of [App]. *)
Definition errorHistory (tr : list (nat * Event)) : list (option jsstring) :=
  omap errorOf tr.

End Histories.
Import Histories.

(** ** More concrete cases *)

Module MoreExamples.

(** The second request fails, every other one is answered. *)
Definition failingSecond : Behaviour :=
  λ n _, match n with
         | 1 => {| outcome := inl (JsError (lit "quota exceeded"));
                   elapsed := 1 |}
         | _ => {| outcome := inr (plainResponse (lit "<p>7/10</p>"));
                   elapsed := 1 |}
         end.

(** A session that starts with an empty storage. *)
Definition emptyStorage : LocalStorage :=
  {| denied := false; unreadable := false; items := ∅ |}.

(** A storage that is full: it can be read and refuses every write; it
    holds a model saved earlier. *)
Definition fullStorage : LocalStorage :=
  {| denied := true; unreadable := false;
     items := {[ preferredAiModelKey := lit "gemini-2.5-pro" ]} |}.

Definition fullSession : Session :=
  {| ss_formData := initialFormData fullStorage;
     ss_storage := fullStorage;
     ss_errorsLogged := 0 |}.

Definition freshSession : Session :=
  {| ss_formData := initialFormData emptyStorage;
     ss_storage := emptyStorage;
     ss_errorsLogged := 0 |}.

(** The change of the form made by choosing a model. *)
Definition choosing (m : jsstring) : PartialFormData :=
  {| p_examInfo := None; p_scoringCriteria := None; p_examMaterials := None;
     p_students := None; p_model := Some m |}.

(** A world left by an earlier batch. *)
Definition usedWorld : World :=
  {| results := [withError validationMessage (initialResult studentB)];
     progress := {| current := 1; total := 1 |};
     isLoading := false; appError := Some (lit "stale");
     clock := 0; requests := 0; trace := [(0, EvNewDate)] |}.

End MoreExamples.
Import MoreExamples.

(** * Properties *)

Section LoopBody.

Variable service : Behaviour.
Variable toLocaleString : nat → jsstring.
Variable formData : FormData.

Local Ltac same_world :=
  unfold turnEnd, opening, catching, failedResults, doneResults,
    formattingResults, analyzingResults, reportDataOf, gradeRequest,
    formatRequest;
  simpl; do 2 f_equal; rewrite <- ?app_assoc; reflexivity.

Lemma loopBody_turn i student w :
  ∃ δ w', loopBody service toLocaleString formData i student w = (Ok tt, w')
          ∧ Turn service toLocaleString formData i student w δ w'.
Proof.
  unfold loopBody, tryCatch, tryBlock, catchBlock, observe, bind.
  unfold gradeSolutionAndGenerateFeedback, formatReportToHtml, bind.
  unfold setProgress, newDate, setResults, consoleError, generateContent,
    throw, ret, emit.
  simpl.
  destruct (decide _) as [Hmiss|Hvalid]; simpl.
  - eexists _, _. split; [|eapply turn_missing_input; [exact Hmiss|reflexivity]].
    same_world.
  - destruct (outcome (service (requests w) _)) as [e|graded] eqn:Hgrade; simpl.
    + eexists _, _.
      split; [|eapply turn_grade_failed; [exact Hvalid|exact Hgrade|reflexivity..]].
      same_world.
    + destruct (outcome (service (S (requests w)) _)) as [e|answer] eqn:Hformat;
        simpl; [|destruct (text answer) as [html|] eqn:Htext; simpl].
      * eexists _, _.
        split; [|eapply turn_format_failed;
                  [exact Hvalid|exact Hgrade|reflexivity
                  |unfold formatted, formatRequest; rewrite Hformat; reflexivity
                  |reflexivity..]].
        same_world.
      * eexists _, _.
        split; [|eapply turn_done;
                  [exact Hvalid|exact Hgrade|reflexivity
                  |unfold formatted, formatRequest; rewrite Hformat, Htext; reflexivity
                  |reflexivity..]].
        same_world.
      * eexists _, _.
        split; [|eapply turn_format_failed;
                  [exact Hvalid|exact Hgrade|reflexivity
                  |unfold formatted, formatRequest; rewrite Hformat, Htext; reflexivity
                  |reflexivity..]].
        same_world.
Qed.
End LoopBody.

(** ** Lists *)

Lemma filter_all {A} (P : A → Prop) `{!∀ x, Decision (P x)} (l : list A) :
  Forall P l → filter P l = l.
Proof.
  induction 1 as [|x l Hx _ IH]; [done|].
  by rewrite filter_cons_True, IH.
Qed.

(** ** The updates of [results] *)

Lemma strictEq_true a b : strictEq a b = true ↔ a = b.
Proof. unfold strictEq. apply bool_decide_eq_true. Qed.

Lemma strictEq_refl a : strictEq a a = true.
Proof. by apply strictEq_true. Qed.

Lemma strictEq_ne a b : a ≠ b → strictEq a b = false.
Proof. intros. unfold strictEq. by apply bool_decide_eq_false. Qed.

Lemma forStudent_lookup sid upd rs k :
  forStudent sid upd rs !! k
  = (λ r, if strictEq (studentId r) sid then upd r else r) <$> rs !! k.
Proof. unfold forStudent. apply list_lookup_fmap. Qed.

Lemma forStudent_lookup_eq sid upd rs k r :
  rs !! k = Some r → studentId r = sid →
  forStudent sid upd rs !! k = Some (upd r).
Proof.
  intros Hk Hid. rewrite forStudent_lookup, Hk. simpl.
  by rewrite Hid, strictEq_refl.
Qed.

Lemma forStudent_lookup_ne sid upd rs k r :
  rs !! k = Some r → studentId r ≠ sid →
  forStudent sid upd rs !! k = Some r.
Proof.
  intros Hk Hid. rewrite forStudent_lookup, Hk. simpl.
  by rewrite strictEq_ne.
Qed.

Lemma forStudent_ids sid upd rs :
  keepsId upd → studentId <$> forStudent sid upd rs = studentId <$> rs.
Proof.
  intros Hupd. unfold forStudent. rewrite <- list_fmap_compose.
  apply list_fmap_ext. intros _ r _. simpl.
  destruct (strictEq _ _); [apply Hupd | reflexivity].
Qed.

Lemma withProgressMessage_keepsId m : keepsId (withProgressMessage m).
Proof. by intros r. Qed.
Lemma withDone_keepsId d : keepsId (withDone d).
Proof. by intros r. Qed.
Lemma withError_keepsId m : keepsId (withError m).
Proof. by intros r. Qed.

Create HintDb keeps discriminated.
#[global] Hint Resolve withProgressMessage_keepsId withDone_keepsId
  withError_keepsId : keeps.

(** Looking up the record of the student whose turn it is, through the
    updates made so far. *)
Ltac lookup_own Hk Hid :=
  first [ exact Hk
        | eapply forStudent_lookup_eq; [lookup_own Hk Hid | exact Hid] ].

(** Going through the events of an explicit list. *)
Ltac in_cases Hin :=
  repeat (apply elem_of_cons in Hin as [Hin|Hin]; [simplify_eq|]);
  try (by apply elem_of_nil in Hin).

Ltac unfold_turn :=
  unfold turnEnd, opening, catching, failedResults, doneResults,
    formattingResults, analyzingResults.

Ltac unfold_turn_in H :=
  unfold turnEnd, opening, catching, failedResults, doneResults,
    formattingResults, analyzingResults in H; simpl in H.

(** ** One turn of the loop *)

Section TurnFacts.

Variable service : Behaviour.
Variable toLocaleString : nat → jsstring.
Variable formData : FormData.

Local Abbreviation Turn := (Turn service toLocaleString formData).

Lemma turn_trace i s w δ w' : Turn i s w δ w' → trace w' = trace w ++ δ.
Proof. by destruct 1. Qed.

Lemma turn_progress i s w δ w' :
  Turn i s w δ w' →
  progress w' = {| current := i + 1; total := total (progress w) |}
  ∧ progressHistory δ = [progress w'].
Proof. intros H. by destruct H; subst. Qed.

Lemma turn_index i s w δ w' te x :
  Turn i s w δ w' → te ∈ δ → indexOf te.2 = Some x → x = i.
Proof.
  intros H Hin Hx. destruct H; subst; unfold_turn_in Hin;
    repeat (apply elem_of_cons in Hin as [->|Hin]; [simpl in Hx; congruence|]);
    by apply elem_of_nil in Hin.
Qed.

Lemma turn_ids i s w δ w' :
  Turn i s w δ w' →
  studentId <$> results w' = studentId <$> results w
  ∧ ∀ t rs, (t, EvSetResults rs) ∈ δ →
            studentId <$> rs = studentId <$> results w.
Proof.
  intros H. destruct H; subst; unfold_turn; simpl;
    (split; [by rewrite !forStudent_ids by auto with keeps|]);
    intros t0 rs Hin;
    repeat (apply elem_of_cons in Hin as [Heq|Hin];
            [simplify_eq; by rewrite !forStudent_ids by auto with keeps|]);
    by apply elem_of_nil in Hin.
Qed.

Lemma turn_foreign i s w δ w' k r :
  Turn i s w δ w' → results w !! k = Some r → studentId r ≠ id s →
  results w' !! k = Some r ∧ Forall (λ r', r' = r) (recordHistory k δ).
Proof.
  intros H Hk Hne.
  destruct H; subst; unfold_turn; unfold recordHistory, recordOf; simpl;
    repeat (erewrite !forStudent_lookup_ne; eauto); simpl;
    split; auto; repeat constructor.
Qed.

Lemma turn_own i s w δ w' k r :
  Turn i s w δ w' → results w !! k = Some r → studentId r = id s →
  ∃ r', results w' !! k = Some r'
        ∧ studentId r' = studentId r ∧ terminal r'.
Proof.
  intros H Hk Hid.
  destruct H; subst; unfold_turn; simpl;
    (eexists; split;
     [lookup_own Hk Hid|]);
    (split; [reflexivity|]); unfold terminal; simpl; auto.
Qed.

(** What a turn does to one record: the record of the student whose turn
    it is becomes terminal, a terminal record stays terminal, and the
    record of another student is left as it is. *)
Lemma turn_terminal i s w δ w' k r :
  Turn i s w δ w' → results w !! k = Some r →
  ∃ r', results w' !! k = Some r'
        ∧ studentId r' = studentId r
        ∧ (terminal r ∨ studentId r = id s → terminal r')
        ∧ (studentId r ≠ id s → r' = r).
Proof.
  intros H Hk.
  destruct (decide (studentId r = id s)) as [Hid|Hne].
  - destruct (turn_own _ _ _ _ _ _ _ H Hk Hid) as (r' & Hk' & Hid' & Hterm).
    exists r'. done.
  - destruct (turn_foreign _ _ _ _ _ _ _ H Hk Hne) as [Hk' _].
    exists r. split; [done|]. split; [done|]. split; [|done].
    by intros [Ht|Hid].
Qed.

End TurnFacts.

(** ** The loop *)

Section LoopFacts.

Variable service : Behaviour.
Variable toLocaleString : nat → jsstring.
Variable formData : FormData.

Local Abbreviation Turn := (Turn service toLocaleString formData).
Local Abbreviation Loop := (Loop service toLocaleString formData).
Local Abbreviation loopBody := (loopBody service toLocaleString formData).
Local Abbreviation forLoop := (forLoop service toLocaleString formData).

Lemma forLoop_cons i s rest w w' :
  loopBody i s w = (Ok tt, w') →
  forLoop i (s :: rest) w = forLoop (S i) rest w'.
Proof. intros H. simpl. unfold bind. by rewrite H. Qed.

(** The loop function always returns, and [Loop] is what it computes. *)
Lemma forLoop_Loop rest : ∀ i w,
  ∃ δ w', forLoop i rest w = (Ok tt, w') ∧ Loop i rest w δ w'.
Proof.
  induction rest as [|s rest IH]; intros i w.
  - exists [], w. split; [done|constructor].
  - destruct (loopBody_turn service toLocaleString formData i s w)
      as (δ1 & w1 & Hbody & Hturn).
    destruct (IH (S i) w1) as (δ2 & w2 & Hloop & HLoop).
    exists (δ1 ++ δ2), w2.
    split; [by rewrite (forLoop_cons _ _ _ _ _ Hbody)|].
    by econstructor.
Qed.

Lemma loop_trace i rest w δ w' : Loop i rest w δ w' → trace w' = trace w ++ δ.
Proof.
  induction 1 as [|i s rest w δ1 w1 δ2 w2 Hturn _ IH].
  - by rewrite app_nil_r.
  - by rewrite IH, (turn_trace _ _ _ _ _ _ _ _ Hturn), app_assoc.
Qed.

Lemma loop_index i rest w δ w' te x :
  Loop i rest w δ w' → te ∈ δ → indexOf te.2 = Some x →
  i ≤ x < i + length rest.
Proof.
  induction 1 as [|i s rest w δ1 w1 δ2 w2 Hturn _ IH]; intros Hin Hx.
  - by apply elem_of_nil in Hin.
  - apply elem_of_app in Hin as [Hin|Hin].
    + rewrite (turn_index _ _ _ _ _ _ _ _ _ _ Hturn Hin Hx). simpl. lia.
    + specialize (IH Hin Hx). simpl. lia.
Qed.

Lemma turn_calls_grade i s w δ w' :
  Turn i s w δ w' → (clock w, EvCall Grade i) ∈ δ.
Proof.
  destruct 1; subst; apply elem_of_app; left; unfold opening;
    repeat constructor.
Qed.

Lemma loop_calls_grade i rest w δ w' j :
  Loop i rest w δ w' → i ≤ j < i + length rest →
  ∃ t, (t, EvCall Grade j) ∈ δ.
Proof.
  induction 1 as [|i s rest w δ1 w1 δ2 w2 Hturn _ IH]; intros Hj.
  - simpl in Hj. lia.
  - destruct (decide (j = i)) as [->|Hne].
    + exists (clock w). apply elem_of_app. left.
      eapply turn_calls_grade; eauto.
    + destruct IH as [t Ht]; [simpl in Hj; lia|].
      exists t. apply elem_of_app. by right.
Qed.

Lemma loop_ids i rest w δ w' :
  Loop i rest w δ w' →
  studentId <$> results w' = studentId <$> results w
  ∧ ∀ t rs, (t, EvSetResults rs) ∈ δ →
            studentId <$> rs = studentId <$> results w.
Proof.
  induction 1 as [|i s rest w δ1 w1 δ2 w2 Hturn _ [IH1 IH2]].
  - split; [done|]. intros t rs Hin. by apply elem_of_nil in Hin.
  - destruct (turn_ids _ _ _ _ _ _ _ _ Hturn) as [H1 H2].
    split; [by rewrite IH1|].
    intros t rs [Hin|Hin]%elem_of_app; [by eapply H2|].
    rewrite <- H1. by eapply IH2.
Qed.

Lemma loop_foreign i rest w δ w' k r :
  Loop i rest w δ w' →
  results w !! k = Some r → studentId r ∉ id <$> rest →
  results w' !! k = Some r ∧ Forall (λ r', r' = r) (recordHistory k δ).
Proof.
  induction 1 as [|i s rest w δ1 w1 δ2 w2 Hturn _ IH]; intros Hk Hnotin.
  - split; [done|constructor].
  - rewrite fmap_cons, not_elem_of_cons in Hnotin.
    destruct Hnotin as [Hne Hnotin].
    destruct (turn_foreign _ _ _ _ _ _ _ _ _ _ Hturn Hk Hne) as [Hk1 Hh1].
    destruct (IH Hk1 Hnotin) as [Hk2 Hh2].
    split; [done|].
    unfold recordHistory. rewrite omap_app. by apply Forall_app.
Qed.

(** A record that is terminal, or whose student is still to come, is
    terminal when the loop ends. *)
Lemma loop_terminal i rest w δ w' k r :
  Loop i rest w δ w' →
  results w !! k = Some r → terminal r ∨ studentId r ∈ id <$> rest →
  ∃ r', results w' !! k = Some r' ∧ terminal r'.
Proof.
  intros H. revert r.
  induction H as [|i s rest w δ1 w1 δ2 w2 Hturn _ IH]; intros r Hk Hr.
  - destruct Hr as [Hr|Hr]; [by exists r|].
    by apply elem_of_nil in Hr.
  - destruct (turn_terminal _ _ _ _ _ _ _ _ _ _ Hturn Hk)
      as (r1 & Hk1 & Hid1 & Hterm1 & Hsame1).
    apply (IH r1 Hk1).
    destruct (decide (studentId r = id s)) as [Heq|Hne].
    + left. apply Hterm1. by right.
    + destruct Hr as [Hr|Hr].
      * left. apply Hterm1. by left.
      * right. rewrite Hid1. rewrite fmap_cons in Hr.
        apply elem_of_cons in Hr as [Hr|Hr]; [done|exact Hr].
Qed.

Lemma loop_progress i rest w δ w' :
  Loop i rest w δ w' →
  progressHistory δ
  = (λ c, {| current := c; total := total (progress w) |})
    <$> seq (i + 1) (length rest)
  ∧ total (progress w') = total (progress w)
  ∧ (rest ≠ [] → current (progress w') = i + length rest).
Proof.
  induction 1 as [|i s rest w δ1 w1 δ2 w2 Hturn Hloop (IH1 & IH2 & IH3)].
  - done.
  - destruct (turn_progress _ _ _ _ _ _ _ _ Hturn) as [Hp Hh].
    unfold progressHistory in *. rewrite omap_app, Hh, IH1, IH2, Hp. simpl.
    split; [by replace (S i + 1) with (S (i + 1)) by lia|].
    split; [done|]. intros _.
    destruct rest as [|s' rest].
    + inversion Hloop; subst. rewrite Hp. simpl. lia.
    + rewrite IH3 by done. simpl. lia.
Qed.

(** Splitting the loop at one student. *)
Lemma loop_split l1 : ∀ s l2 i w δ w',
  Loop i (l1 ++ s :: l2) w δ w' →
  ∃ δ1 wk δk wk' δ2,
    Loop i l1 w δ1 wk
    ∧ Turn (i + length l1) s wk δk wk'
    ∧ Loop (S (i + length l1)) l2 wk' δ2 w'
    ∧ δ = δ1 ++ δk ++ δ2.
Proof.
  induction l1 as [|s1 l1 IH]; intros s l2 i w δ w' H.
  - inversion H as [|? ? ? ? δ1 w1 δ2 w2 Hturn Hloop]; subst.
    exists [], w, δ1, w1, δ2. simpl. rewrite Nat.add_0_r.
    split; [constructor|done].
  - inversion H as [|? ? ? ? δ1 w1 δ2 w2 Hturn Hloop]; subst.
    destruct (IH _ _ _ _ _ _ Hloop) as (δa & wk & δk & wk' & δb & Ha & Hk & Hb & ->).
    exists (δ1 ++ δa), wk, δk, wk', δb. simpl.
    replace (i + S (length l1)) with (S i + length l1) by lia.
    split; [by econstructor|]. split; [done|]. split; [done|].
    by rewrite <- app_assoc.
Qed.

End LoopFacts.

(** ** The whole run *)

Section RunFacts.

Variable service : Behaviour.
Variable toLocaleString : nat → jsstring.
Variable formData : FormData.
Variable w0 : World.

Local Abbreviation Turn := (Turn service toLocaleString formData).
Local Abbreviation Loop := (Loop service toLocaleString formData).
Local Abbreviation forLoop := (forLoop service toLocaleString formData).
Local Abbreviation run := (run service toLocaleString formData w0).
Local Abbreviation roster := (students formData).
Local Abbreviation afterPrologue := (afterPrologue formData w0).

Lemma prologue_ok : prologue formData (starting w0) = (Ok tt, afterPrologue).
Proof. reflexivity. Qed.

Lemma afterPrologue_results : results afterPrologue = initialResult <$> roster.
Proof. reflexivity. Qed.

Lemma afterPrologue_progress :
  progress afterPrologue = {| current := 0; total := length roster |}.
Proof. reflexivity. Qed.

Lemma afterPrologue_trace :
  trace afterPrologue =
  [ (clock w0, EvSetIsLoading true); (clock w0, EvSetError None);
    (clock w0, EvSetProgress {| current := 0; total := length roster |});
    (clock w0, EvSetResults (initialResult <$> roster)) ].
Proof. reflexivity. Qed.

(** The handler returns, and its run is the prologue, the loop over the
    roster, and the final [setIsLoading(false)]. *)
Lemma run_loop :
  ∃ δ wl,
    Loop 0 roster afterPrologue δ wl
    ∧ handleGenerateReport service toLocaleString formData (starting w0)
      = (Ok tt, run)
    ∧ trace run
      = trace afterPrologue ++ δ ++ [(clock wl, EvSetIsLoading false)]
    ∧ results run = results wl
    ∧ progress run = progress wl.
Proof.
  destruct (forLoop_Loop service toLocaleString formData roster 0 afterPrologue)
    as (δ & wl & Hloop & HLoop).
  exists δ, wl. split; [exact HLoop|].
  assert (Hrun : handleGenerateReport service toLocaleString formData
                   (starting w0)
                 = (Ok tt, exec (setIsLoading false) wl)).
  { unfold handleGenerateReport, bind. rewrite prologue_ok. by rewrite Hloop. }
  assert (Heq : run = exec (setIsLoading false) wl).
  { unfold App.run, exec. by rewrite Hrun. }
  rewrite Heq. split; [exact Hrun|].
  split; [|done].
  change (trace (exec (setIsLoading false) wl))
    with (trace wl ++ [(clock wl, EvSetIsLoading false)]).
  by rewrite (loop_trace _ _ _ _ _ _ _ _ HLoop), <- app_assoc.
Qed.

(** The run, seen from the student at index [k]: what comes before the
    turn of that student, the turn, and what comes after it. *)
Lemma run_turn k s :
  roster !! k = Some s →
  ∃ wk δ wk' post,
    Turn k s wk δ wk'
    ∧ trace run = trace wk ++ δ ++ post
    ∧ total (progress wk) = length roster
    ∧ (∀ te x, te ∈ trace wk → indexOf te.2 = Some x → x < k)
    ∧ (∀ te x, te ∈ post → indexOf te.2 = Some x → k < x)
    ∧ (∀ j, k < j < length roster → ∃ t, (t, EvCall Grade j) ∈ post)
    ∧ (NoDup (id <$> roster) →
         results wk !! k = Some (initialResult s)
         ∧ Forall (λ r, r = initialResult s) (recordHistory k (trace wk))
         ∧ results run !! k = results wk' !! k
         ∧ ∀ r, results wk' !! k = Some r →
                Forall (λ r', r' = r) (recordHistory k post)).
Proof.
  intros Hk.
  destruct (list_elem_of_split_length _ _ _ Hk) as (pre & rest & Hroster & ->).
  destruct run_loop as (δr & wl & HLoop & _ & Htrace & Hresults & _).
  rewrite Hroster in HLoop.
  destruct (loop_split _ _ _ _ _ _ _ _ _ _ HLoop)
    as (δ1 & wk & δ & wk' & δ3 & Hpre & Hturn & Hrest & ->).
  simpl in Hturn, Hrest.
  pose proof (loop_trace _ _ _ _ _ _ _ _ Hpre) as Htr1.
  exists wk, δ, wk', (δ3 ++ [(clock wl, EvSetIsLoading false)]).
  split; [exact Hturn|].
  split; [by rewrite Htrace, Htr1, <- !app_assoc|].
  split.
  { by rewrite (proj1 (proj2 (loop_progress _ _ _ _ _ _ _ _ Hpre))). }
  split.
  { intros te x Hin Hx. rewrite Htr1 in Hin.
    apply elem_of_app in Hin as [Hin|Hin].
    - rewrite afterPrologue_trace in Hin.
      repeat (apply elem_of_cons in Hin as [->|Hin]; [discriminate Hx|]).
      by apply elem_of_nil in Hin.
    - pose proof (loop_index _ _ _ _ _ _ _ _ _ _ Hpre Hin Hx). lia. }
  split.
  { intros te x Hin Hx.
    apply elem_of_app in Hin as [Hin|Hin].
    - pose proof (loop_index _ _ _ _ _ _ _ _ _ _ Hrest Hin Hx). lia.
    - apply list_elem_of_singleton in Hin as ->. discriminate Hx. }
  split.
  { intros j Hj.
    destruct (loop_calls_grade _ _ _ _ _ _ _ _ j Hrest) as [t Ht].
    - rewrite Hroster, length_app in Hj. simpl in Hj. lia.
    - exists t. apply elem_of_app. by left. }
  intros Hnodup.
  rewrite Hroster, fmap_app, fmap_cons in Hnodup.
  apply NoDup_app in Hnodup as (_ & Hpre_ne & Hnodup).
  apply NoDup_cons in Hnodup as [Hrest_ne _].
  assert (Hs_pre : id s ∉ id <$> pre).
  { intros Hin. apply (Hpre_ne _ Hin). left. }
  assert (Hk0 : results afterPrologue !! length pre = Some (initialResult s)).
  { by rewrite afterPrologue_results, list_lookup_fmap, Hk. }
  destruct (loop_foreign _ _ _ _ _ _ _ _ _ _ Hpre Hk0 Hs_pre) as [Hk1 Hh1].
  destruct (turn_own _ _ _ _ _ _ _ _ _ _ Hturn Hk1 eq_refl)
    as (r & Hk2 & Hr & _).
  assert (Hr_rest : studentId r ∉ id <$> rest) by by rewrite Hr.
  destruct (loop_foreign _ _ _ _ _ _ _ _ _ _ Hrest Hk2 Hr_rest) as [Hk3 Hh3].
  split; [exact Hk1|].
  split.
  { rewrite Htr1. unfold recordHistory. rewrite omap_app. apply Forall_app.
    split; [|exact Hh1].
    rewrite afterPrologue_trace. unfold recordOf. simpl.
    rewrite list_lookup_fmap, Hk. simpl. by repeat constructor. }
  split; [by rewrite Hresults, Hk3|].
  intros r' Hr'. rewrite Hk2 in Hr'. injection Hr' as <-.
  unfold recordHistory. rewrite omap_app. apply Forall_app.
  split; [exact Hh3|]. simpl. constructor.
Qed.

(** Every record is terminal when the run ends. *)
Lemma run_terminal j s :
  roster !! j = Some s → ∃ r, results run !! j = Some r ∧ terminal r.
Proof.
  intros Hj.
  destruct run_loop as (δ & wl & HLoop & _ & _ & Hresults & _).
  rewrite Hresults.
  eapply (loop_terminal _ _ _ _ _ _ _ _ _ _ HLoop).
  - by rewrite afterPrologue_results, list_lookup_fmap, Hj.
  - right. simpl. apply list_elem_of_fmap. exists s. split; [done|].
    by eapply list_elem_of_lookup_2.
Qed.

(** Where an event of a client call of student [k] is in the trace of a
    run: in the turn of that student. *)
Lemma run_turn_event wk δ post k te :
  trace run = trace wk ++ δ ++ post →
  (∀ te x, te ∈ trace wk → indexOf te.2 = Some x → x < k) →
  (∀ te x, te ∈ post → indexOf te.2 = Some x → k < x) →
  indexOf te.2 = Some k →
  te ∈ trace run ↔ te ∈ δ.
Proof.
  intros -> Hpre Hpost Hk. rewrite !elem_of_app. split; [|auto].
  intros [Hin|[Hin|Hin]]; [|done|].
  - specialize (Hpre _ _ Hin Hk). lia.
  - specialize (Hpost _ _ Hin Hk). lia.
Qed.

End RunFacts.

(** ** The calls of the service *)

(** What a call of the service comes to. *)
Lemma generateContent_reply service req w :
  ∃ w', requests w' = S (requests w)
        ∧ generateContent service req w
          = (match outcome (service (requests w) req) with
             | inl e => Throw e
             | inr response => Ok response
             end, w').
Proof.
  unfold generateContent. eexists.
  split; [|destruct (outcome _); reflexivity]. reflexivity.
Qed.

(** ** Failure of the grading stage *)

Section GradeFailure.

Variable service : Behaviour.
Variable toLocaleString : nat → jsstring.
Variable formData : FormData.
Variable w0 : World.

Local Abbreviation Turn := (Turn service toLocaleString formData).
Local Abbreviation run := (run service toLocaleString formData w0).
Local Abbreviation roster := (students formData).

(** A turn whose grading call throws [e] never calls the formatting
    stage, and leaves the record of its student failed with the message
    of [e]. *)
Lemma turn_grade_throws i s w δ w' t e :
  Turn i s w δ w' → (t, EvReturn Grade i (Throw e)) ∈ δ →
  (∀ t', (t', EvCall Format i) ∉ δ)
  ∧ ∀ k r, results w !! k = Some r → studentId r = id s →
           results w' !! k = Some (withError (messageOf e) r).
Proof.
  intros H Hin.
  destruct H; subst; unfold_turn_in Hin; in_cases Hin.
  - split.
    + intros t' Hin'. unfold_turn_in Hin'. in_cases Hin'.
    + intros k r Hk Hid. unfold_turn. simpl.
      erewrite forStudent_lookup_eq; [|lookup_own Hk Hid|exact Hid].
      reflexivity.
  - split.
    + intros t' Hin'. unfold_turn_in Hin'. in_cases Hin'.
    + intros k r Hk Hid. unfold_turn. simpl.
      erewrite forStudent_lookup_eq; [|lookup_own Hk Hid|exact Hid].
      reflexivity.
Qed.

(** C1. If the grading stage fails for the student at index [k] (the call
    of [gradeSolutionAndGenerateFeedback] made for that student throws
    [e]), then [formatReportToHtml] is never called for that student;
    when the ids of the roster are distinct, the record of that student
    ends with status [error] and the message captured from [e]; and every
    later student of the roster is still processed: the grading stage is
    called for each of them and their records end terminal. *)
Theorem grade_failure_is_isolated k student t e :
  roster !! k = Some student →
  (t, EvReturn Grade k (Throw e)) ∈ trace run →
  (∀ t', (t', EvCall Format k) ∉ trace run)
  ∧ (NoDup (id <$> roster) →
     results run !! k
     = Some {| status := error; rr_data := None;
               rr_error := Some (messageOf e);
               studentName := name student; studentId := id student;
               progressMessage := None |})
  ∧ (∀ j, k < j < length roster →
       (∃ t', (t', EvCall Grade j) ∈ trace run)
       ∧ ∃ r, results run !! j = Some r ∧ terminal r).
Proof.
  intros Hk Hthrow.
  destruct (run_turn service toLocaleString formData w0 k student Hk)
    as (wk & δ & wk' & post & Hturn & Htrace & _ & Hpre & Hpost & Hcalls & Hrec).
  apply (run_turn_event _ _ _ _ _ _ _ _ (t, EvReturn Grade k (Throw e))
           Htrace Hpre Hpost eq_refl) in Hthrow.
  destruct (turn_grade_throws _ _ _ _ _ _ _ Hturn Hthrow) as [Hnoformat Hfailed].
  split; [|split].
  - intros t' Hin.
    apply (run_turn_event _ _ _ _ _ _ _ _ (t', EvCall Format k)
             Htrace Hpre Hpost eq_refl) in Hin.
    by apply (Hnoformat t').
  - intros Hnodup. destruct (Hrec Hnodup) as (Hk0 & _ & -> & _).
    by rewrite (Hfailed _ _ Hk0 eq_refl).
  - intros j Hj. split.
    + destruct (Hcalls j Hj) as [t' Ht']. exists t'.
      rewrite Htrace, !elem_of_app. auto.
    + destruct (lookup_lt_is_Some_2 roster j) as [s Hs]; [lia|].
      by eapply run_terminal.
Qed.

End GradeFailure.

(** ** The records when the batch ends *)

Section FinalRecords.

Variable service : Behaviour.
Variable toLocaleString : nat → jsstring.
Variable formData : FormData.
Variable w0 : World.

Local Abbreviation run := (run service toLocaleString formData w0).
Local Abbreviation roster := (students formData).

Lemma initialResult_ids (l : list StudentData) :
  studentId <$> (initialResult <$> l) = id <$> l.
Proof. rewrite <- list_fmap_compose. by apply list_fmap_ext. Qed.

(** C2. When the handler returns, [results] holds one record per student
    of the roster, in the order of the roster, and every record is
    terminal ([done] or [error], none is [loading]); all along the run,
    every value given to [results] has exactly the ids of the roster, in
    that order: no record is deleted or duplicated. This holds for every
    roster, the empty one included. *)
Theorem one_terminal_record_per_student_in_roster_order :
  handleGenerateReport service toLocaleString formData (starting w0)
  = (Ok tt, run)
  ∧ studentId <$> results run = id <$> roster
  ∧ Forall (λ r, status r = done ∨ status r = error) (results run)
  ∧ Forall (λ r, status r ≠ loading) (results run)
  ∧ ∀ t rs, (t, EvSetResults rs) ∈ trace run →
            studentId <$> rs = id <$> roster.
Proof.
  destruct (run_loop service toLocaleString formData w0)
    as (δ & wl & HLoop & Hret & Htrace & Hresults & _).
  destruct (loop_ids _ _ _ _ _ _ _ _ HLoop) as [Hids Hall].
  rewrite afterPrologue_results, initialResult_ids in Hids, Hall.
  assert (Hfinal : studentId <$> results run = id <$> roster)
    by by rewrite Hresults.
  assert (Hterm : Forall terminal (results run)).
  { apply Forall_lookup. intros j r Hj.
    assert (Hlen : j < length roster).
    { rewrite <- (length_fmap id), <- Hfinal, length_fmap.
      by eapply lookup_lt_Some. }
    destruct (lookup_lt_is_Some_2 roster j Hlen) as [s Hs].
    destruct (run_terminal service toLocaleString formData w0 j s Hs)
      as (r' & Hr' & Hterm).
    rewrite Hj in Hr'. by injection Hr' as <-. }
  split; [exact Hret|]. split; [exact Hfinal|].
  split; [exact Hterm|].
  split.
  { eapply Forall_impl; [exact Hterm|].
    intros r [H|H]; rewrite H; discriminate. }
  intros t rs Hin. rewrite Htrace, afterPrologue_trace in Hin.
  apply elem_of_app in Hin as [Hin|Hin].
  - in_cases Hin. apply initialResult_ids.
  - apply elem_of_app in Hin as [Hin|Hin]; [by eapply Hall|].
    in_cases Hin.
Qed.

End FinalRecords.

(** ** Missing documents *)

Section MissingInput.

Variable service : Behaviour.
Variable toLocaleString : nat → jsstring.
Variable formData : FormData.
Variable w0 : World.

Local Abbreviation Turn := (Turn service toLocaleString formData).
Local Abbreviation run := (run service toLocaleString formData w0).
Local Abbreviation roster := (students formData).




End MissingInput.

(** ** Progress *)

Section ProgressFacts.

Variable service : Behaviour.
Variable toLocaleString : nat → jsstring.
Variable formData : FormData.
Variable w0 : World.

Local Abbreviation run := (run service toLocaleString formData w0).
Local Abbreviation roster := (students formData).

(** C4, as the code has it. All along the run [total] is the size of the
    roster; [current] starts at 0 and takes the values 1, 2, ... up to
    the size of the roster, one after the other, each one set once, at
    the start of the turn of the student at that position, before the
    grading stage is called for that student; so [current] reaches
    [total] when the turn of the last student starts, and is [total] when
    the loop ends. *)
Theorem progress_advances_at_the_start_of_each_turn :
  progressHistory (trace run)
  = (λ c, {| current := c; total := length roster |})
    <$> seq 0 (S (length roster))
  ∧ progress run = {| current := length roster; total := length roster |}
  ∧ ∀ k student, roster !! k = Some student →
      ∃ pre post t rs,
        trace run
        = pre ++ [(t, EvSetProgress {| current := k + 1;
                                        total := length roster |});
                  (t, EvNewDate); (t, EvSetResults rs); (t, EvCall Grade k)]
              ++ post
        ∧ ∀ te, te ∈ pre → indexOf te.2 ≠ Some k.
Proof.
  destruct (run_loop service toLocaleString formData w0)
    as (δ & wl & HLoop & _ & Htrace & _ & Hprogress).
  destruct (loop_progress _ _ _ _ _ _ _ _ HLoop) as (Hhist & Htotal & Hcurrent).
  rewrite afterPrologue_progress in Hhist, Htotal. simpl in Hhist, Htotal.
  split; [|split].
  - rewrite Htrace, afterPrologue_trace. unfold progressHistory in *.
    rewrite !omap_app, Hhist. simpl. by rewrite app_nil_r.
  - rewrite Hprogress. destruct (progress wl) as [c n] eqn:Hp.
    simpl in Htotal, Hcurrent. subst n. f_equal.
    destruct roster as [|s l] eqn:Hroster.
    + inversion HLoop; subst. rewrite afterPrologue_progress in Hp.
      by injection Hp.
    + by apply Hcurrent.
  - intros k student Hk.
    destruct (run_turn service toLocaleString formData w0 k student Hk)
      as (wk & δk & wk' & post & Hturn & Htr & Htot & Hpre & _).
    assert (∃ rest, δk = opening k student wk ++ rest) as [rest ->].
    { destruct Hturn; subst; eauto. }
    eexists (trace wk), (rest ++ post), _, _. split.
    + rewrite Htr. unfold opening. rewrite Htot, <- !app_assoc. reflexivity.
    + intros te Hin Hidx. specialize (Hpre _ _ Hin Hidx). lia.
Qed.

End ProgressFacts.

(** C4, as the specification states it, fails on a roster of one student:
    [current] is already equal to [total] when the grading stage of that
    student is called. *)
Lemma current_is_total_before_the_last_student_is_graded :
  ¬ reachesTotalOnlyAtEnd
      (trace (run (answering fenced) showTime (formOf [studentA])
                (initialWorld 0))).
Proof.
  intros H.
  set (tr := trace (run (answering fenced) showTime (formOf [studentA])
                      (initialWorld 0))) in *.
  specialize (H (take 4 tr) 0 {| current := 1; total := 1 |} (drop 5 tr)).
  assert (Hnone : indexOf (0, EvCall Grade 0).2 = None).
  { apply H; [by vm_compute|reflexivity|].
    vm_compute. repeat constructor. }
  discriminate Hnone.
Qed.

(** ** The success path *)

Section SuccessPath.

Variable service : Behaviour.
Variable toLocaleString : nat → jsstring.
Variable formData : FormData.
Variable w0 : World.

Local Abbreviation Turn := (Turn service toLocaleString formData).
Local Abbreviation run := (run service toLocaleString formData w0).
Local Abbreviation roster := (students formData).

(** A turn whose formatting call returns [html] at time [t]: the record of
    its student is made [done] at [t], with the date read when the turn
    started. *)
Lemma turn_format_returns i s w δ w' t html :
  Turn i s w δ w' → (t, EvReturn Format i (Ok (Some html))) ∈ δ →
  ∃ rest raw t1,
    δ = opening i s w ++ rest
    ∧ (t1, EvGenerateContent (formatRequest toLocaleString formData s w raw))
      ∈ rest
    ∧ (t, EvSetResults (results w')) ∈ rest
    ∧ clock w ≤ t
    ∧ ∀ k r, results w !! k = Some r → studentId r = id s →
        results w' !! k
        = Some (withDone {| htmlContent := html;
                            studentEmail := email s;
                            rd_studentName := name s;
                            rd_examInfo := examInfo formData;
                            generationDate := toLocaleString (clock w) |} r).
Proof.
  intros H Hin.
  destruct H; subst; unfold_turn_in Hin; in_cases Hin.
  eexists _, _, _. split; [reflexivity|]. split; [|split; [|split]].
  - repeat constructor.
  - unfold turnEnd. simpl. repeat constructor.
  - lia.
  - intros k r Hk Hid. unfold_turn. simpl.
    erewrite forStudent_lookup_eq; [|lookup_own Hk Hid|exact Hid].
    reflexivity.
Qed.

(** C5, as the code has it. On the success path of the student at index
    [k] (the formatting call of that student returns [html], at time [t]),
    the ids of the roster being distinct, the record of that student ends
    [done], with no progress message, and its result holds [html], the
    name and the email of the student, the shared exam description, and
    the date read from the clock at the start of the [try] block, at time
    [t0], before the grading stage is called: the date that the request
    of the formatting stage carries. The record becomes [done] later, at
    time [t]. *)
Theorem done_record_carries_the_date_read_before_grading k student t html :
  roster !! k = Some student →
  NoDup (id <$> roster) →
  (t, EvReturn Format k (Ok (Some html))) ∈ trace run →
  ∃ pre post t0 rs rs' raw t1,
    trace run
    = pre ++ [(t0, EvNewDate); (t0, EvSetResults rs); (t0, EvCall Grade k)]
          ++ post
    ∧ (t1, EvGenerateContent
             {| req_model := model formData;
                req_contents :=
                  TextOnly (FormatPrompt (toLocaleString t0) (name student)
                              (examInfo formData) raw);
                req_googleSearch := false |}) ∈ post
    ∧ (t, EvSetResults rs') ∈ post
    ∧ t0 ≤ t
    ∧ rs' !! k = results run !! k
    ∧ results run !! k
      = Some {| status := done;
                rr_data :=
                  Some {| htmlContent := html;
                          studentEmail := email student;
                          rd_studentName := name student;
                          rd_examInfo := examInfo formData;
                          generationDate := toLocaleString t0 |};
                rr_error := None;
                studentName := name student; studentId := id student;
                progressMessage := None |}.
Proof.
  intros Hk Hnodup Hret.
  destruct (run_turn service toLocaleString formData w0 k student Hk)
    as (wk & δ & wk' & post & Hturn & Htrace & _ & Hpre & Hpost & _ & Hrec).
  apply (run_turn_event _ _ _ _ _ _ _ _ (t, EvReturn Format k (Ok (Some html)))
           Htrace Hpre Hpost eq_refl) in Hret.
  destruct (turn_format_returns _ _ _ _ _ _ _ Hturn Hret)
    as (rest & raw & t1 & -> & Hrequest & Hdone & Ht & Hrecord).
  destruct (Hrec Hnodup) as (Hk0 & _ & Hfinal & _).
  eexists (trace wk ++ [_]), (rest ++ post), (clock wk), _, (results wk'),
    (toStr raw), t1.
  split; [|split; [|split; [|split; [|split]]]].
  - rewrite Htrace. unfold opening. rewrite <- !app_assoc. reflexivity.
  - apply elem_of_app. by left.
  - apply elem_of_app. by left.
  - exact Ht.
  - by rewrite Hfinal.
  - by rewrite Hfinal, (Hrecord _ _ Hk0 eq_refl).
Qed.

End SuccessPath.

(** C5, as the specification states it, fails whenever the service takes
    time: with one student and a service that answers after one time
    unit, the record becomes [done] at time 2 and holds the date read at
    time 0. *)
Lemma stored_date_is_not_read_at_the_done_transition :
  ¬ dateReadAtDone showTime 0
      (trace (run (answering fenced) showTime (formOf [studentA])
                (initialWorld 0))).
Proof.
  intros H.
  set (w := run (answering fenced) showTime (formOf [studentA])
              (initialWorld 0)) in *.
  assert (Hr : ∃ r d, results w !! 0 = Some r ∧ rr_data r = Some d
                      ∧ status r = done ∧ generationDate d = showTime 0)
    by (vm_compute; eexists _, _; repeat split).
  destruct Hr as (r & d & Hr & Hd & Hs & Hdate).
  specialize (H 2 (results w) r d).
  rewrite Hdate in H.
  assert (Hne : showTime 0 = showTime 2); [|discriminate Hne].
  apply H; [|exact Hr|exact Hs|exact Hd].
  vm_compute. repeat constructor.
Qed.

(** ** The states a record goes through *)

Lemma chainFrom_app r l1 l2 :
  chainFrom r (l1 ++ l2)
  ↔ chainFrom r l1 ∧ chainFrom (default r (last l1)) l2.
Proof.
  revert r. induction l1 as [|r1 l1 IH]; intros r; simpl.
  - tauto.
  - rewrite IH. destruct l1 as [|r2 l1]; simpl; [tauto|].
    rewrite !last_cons. destruct (last l1); simpl; tauto.
Qed.

Lemma chainFrom_same r l :
  Forall (λ r', r' = r) l → chainFrom r l ∧ default r (last l) = r.
Proof.
  intros H. split.
  - induction H as [|r' l -> _ IH]; simpl; [done|]. split; [by left|done].
  - destruct (last l) as [r'|] eqn:Hlast; [|done]. simpl.
    apply last_Some in Hlast as [l' ->].
    apply Forall_app in H as [_ H]. by inversion H.
Qed.

Lemma terminal_phase r p :
  terminal r → phaseOf r = Some p → p = Done ∨ p = Failed.
Proof.
  unfold phaseOf. intros [H|H]; rewrite H;
    destruct (progressMessage r); intros; simplify_eq; auto.
Qed.

Lemma stepOk_terminal r r' : stepOk r r' → terminal r → r' = r.
Proof.
  intros [->|(p & p' & Hp & _ & Hnext)] Hterm; [done|].
  destruct (terminal_phase _ _ Hterm Hp) as [->| ->]; inversion Hnext.
Qed.

(** Along a chain a terminal value is only followed by itself. *)
Lemma chainFrom_terminal r0 l l1 r r' l2 :
  chainFrom r0 l → l = l1 ++ r :: r' :: l2 → terminal r → r' = r.
Proof.
  intros Hchain -> Hterm.
  apply chainFrom_app in Hchain as [_ Hchain]. simpl in Hchain.
  destruct Hchain as (_ & Hstep & _). by apply stepOk_terminal.
Qed.

Section RecordHistory.

Variable service : Behaviour.
Variable toLocaleString : nat → jsstring.
Variable formData : FormData.
Variable w0 : World.

Local Abbreviation Turn := (Turn service toLocaleString formData).
Local Abbreviation run := (run service toLocaleString formData w0).
Local Abbreviation roster := (students formData).

Lemma phaseOf_initial s : phaseOf (initialResult s) = Some Pending.
Proof. by vm_compute. Qed.

Lemma step_analyze s :
  stepOk (initialResult s)
    (withProgressMessage analyzingMessage (initialResult s)).
Proof. right. exists Pending, Analyzing. repeat split; by vm_compute || constructor. Qed.

Lemma step_format s :
  stepOk (withProgressMessage analyzingMessage (initialResult s))
    (withProgressMessage formattingMessage (initialResult s)).
Proof. right. exists Analyzing, Formatting. repeat split; by vm_compute || constructor. Qed.

Lemma step_grade_failed s m :
  stepOk (withProgressMessage analyzingMessage (initialResult s))
    (withError m (initialResult s)).
Proof. right. exists Analyzing, Failed. repeat split; by vm_compute || constructor. Qed.

Lemma step_format_failed s m :
  stepOk (withProgressMessage formattingMessage (initialResult s))
    (withError m (initialResult s)).
Proof. right. exists Formatting, Failed. repeat split; by vm_compute || constructor. Qed.

Lemma step_done s d :
  stepOk (withProgressMessage formattingMessage (initialResult s))
    (withDone d (initialResult s)).
Proof. right. exists Formatting, Done. repeat split; by vm_compute || constructor. Qed.

(** The history of the record of a student during the turn of that
    student, when the record is the initial one as the turn starts. *)
Lemma turn_own_history i s w δ w' k :
  Turn i s w δ w' → results w !! k = Some (initialResult s) →
  ∃ r, results w' !! k = Some r
       ∧ chainFrom (initialResult s) (recordHistory k δ)
       ∧ last (recordHistory k δ) = Some r
       ∧ (phaseOf r = Some Done ∨ phaseOf r = Some Failed).
Proof.
  intros H Hk.
  assert (Hid : studentId (initialResult s) = id s) by reflexivity.
  assert (HA : analyzingResults s w !! k
               = Some (withProgressMessage analyzingMessage (initialResult s))).
  { unfold analyzingResults. lookup_own Hk Hid. }
  assert (HF : formattingResults s w !! k
               = Some (withProgressMessage formattingMessage (initialResult s))).
  { unfold formattingResults.
    erewrite forStudent_lookup_eq; [|exact HA|exact Hid]. reflexivity. }
  assert (HEA : ∀ e, failedResults s e (analyzingResults s w) !! k
                     = Some (withError (messageOf e) (initialResult s))).
  { intros e. unfold failedResults.
    erewrite forStudent_lookup_eq; [|exact HA|exact Hid]. reflexivity. }
  assert (HEF : ∀ e, failedResults s e (formattingResults s w) !! k
                     = Some (withError (messageOf e) (initialResult s))).
  { intros e. unfold failedResults.
    erewrite forStudent_lookup_eq; [|exact HF|exact Hid]. reflexivity. }
  assert (HD : ∀ html, doneResults toLocaleString formData s w html !! k
                       = Some (withDone (reportDataOf toLocaleString formData
                                           s w html) (initialResult s))).
  { intros html. unfold doneResults.
    erewrite forStudent_lookup_eq; [|exact HF|exact Hid]. reflexivity. }
  destruct H; subst; unfold recordHistory, opening, catching, turnEnd;
    cbn [omap list_omap recordOf snd app results];
    rewrite ?HA, ?HF, ?HEA, ?HEF, ?HD; cbn [omap list_omap recordOf snd app].
  all: eexists; split; [reflexivity|]; split;
    [simpl; eauto 10 using step_analyze, step_format, step_grade_failed,
       step_format_failed, step_done|];
    split; [reflexivity|]; auto.
Qed.

(** C6, as the code has it. The ids of the roster being distinct, the
    record of the student at index [k] starts Pending and, from one update
    of [results] to the next, either stays as it is or moves along one
    transition of Pending -> Analyzing -> Formatting -> Done or Failed
    (Failed being reached from Analyzing or Formatting); once terminal it
    is never changed again, and it is terminal when the run ends. The
    update itself has no guard: applied in any state to a record that is
    already terminal, the update that makes a record [done] returns
    normally and overwrites the record, which becomes [done] with the
    new report and keeps the error message it had. *)
Theorem record_moves_forward_to_a_terminal_state k student :
  roster !! k = Some student →
  NoDup (id <$> roster) →
  phaseOf (initialResult student) = Some Pending
  ∧ chainFrom (initialResult student) (recordHistory k (trace run))
  ∧ neverTransitionsAgain k (trace run)
  ∧ (∃ r, results run !! k = Some r
          ∧ last (recordHistory k (trace run)) = Some r
          ∧ (phaseOf r = Some Done ∨ phaseOf r = Some Failed))
  ∧ ∀ w j r reportData,
      results w !! j = Some r → terminal r →
      ∃ w', setResults (forStudent (studentId r) (withDone reportData)) w
            = (Ok tt, w')
            ∧ results w' !! j
              = Some {| status := done; rr_data := Some reportData;
                        rr_error := rr_error r;
                        studentName := studentName r;
                        studentId := studentId r;
                        progressMessage := None |}.
Proof.
  intros Hk Hnodup.
  destruct (run_turn service toLocaleString formData w0 k student Hk)
    as (wk & δ & wk' & post & Hturn & Htrace & _ & _ & _ & _ & Hrec).
  destruct (Hrec Hnodup) as (Hk0 & Hbefore & Hfinal & Hafter).
  destruct (turn_own_history _ _ _ _ _ _ Hturn Hk0)
    as (r & Hr & Hchain & Hlast & Hphase).
  specialize (Hafter r Hr).
  destruct (chainFrom_same _ _ Hbefore) as [Hc1 Hl1].
  destruct (chainFrom_same _ _ Hafter) as [Hc3 Hl3].
  assert (Hhist : recordHistory k (trace run)
                  = recordHistory k (trace wk) ++ recordHistory k δ
                    ++ recordHistory k post).
  { rewrite Htrace. unfold recordHistory. by rewrite !omap_app. }
  assert (Hall : chainFrom (initialResult student) (recordHistory k (trace run))).
  { rewrite Hhist. apply chainFrom_app. split; [exact Hc1|].
    rewrite Hl1. apply chainFrom_app. split; [exact Hchain|].
    by rewrite Hlast. }
  split; [apply phaseOf_initial|]. split; [exact Hall|].
  split; [intros l1 r1 r2 l2 Heq; by eapply chainFrom_terminal|].
  split.
  - exists r. split; [by rewrite Hfinal|]. split; [|exact Hphase].
    rewrite Hhist, app_assoc, last_app.
    destruct (last (recordHistory k post)) as [r'|] eqn:Hpost.
    + simpl in Hl3. by subst r'.
    + by rewrite last_app, Hlast.
  - intros w j r0 reportData Hj _. eexists. split; [reflexivity|].
    simpl. by erewrite forStudent_lookup_eq.
Qed.

End RecordHistory.

(** C6, as the specification states it, fails: the code has no check
    for a transition on a terminal record. After a batch over a valid
    form with two students of distinct ids, during which the service
    failed, the record of the first student is failed; the update of
    line 81 for that student, made in that state, does not throw: it
    returns normally and the record becomes [done], still holding the
    message of the failure. *)
Lemma terminal_record_is_overwritten_silently :
  let formData := formOf [studentA; studentC] in
  let w := run failing showTime formData (initialWorld 0) in
  let reportData :=
    {| htmlContent := lit "<p>late</p>"; studentEmail := email studentA;
       rd_studentName := name studentA; rd_examInfo := examInfo formData;
       generationDate := showTime 0 |} in
  isFormValid formData = true
  ∧ NoDup (id <$> students formData)
  ∧ results w !! 0
    = Some {| status := error; rr_data := None;
              rr_error := Some (lit "fetch failed");
              studentName := name studentA; studentId := id studentA;
              progressMessage := None |}
  ∧ ¬ failsLoudlyOnTerminal w
  ∧ ∃ w', setResults (forStudent (id studentA) (withDone reportData)) w
          = (Ok tt, w')
          ∧ results w' !! 0
            = Some {| status := done; rr_data := Some reportData;
                      rr_error := Some (lit "fetch failed");
                      studentName := name studentA;
                      studentId := id studentA;
                      progressMessage := None |}.
Proof.
  intros formData w reportData.
  assert (Hfailed : results w !! 0
            = Some {| status := error; rr_data := None;
                      rr_error := Some (lit "fetch failed");
                      studentName := name studentA; studentId := id studentA;
                      progressMessage := None |}) by (by vm_compute).
  split; [by vm_compute|].
  split; [apply (bool_decide_unpack _); by vm_compute|].
  split; [exact Hfailed|]. split.
  - intros H.
    destruct (H (id studentA) (withDone reportData) _
                (list_elem_of_lookup_2 _ _ _ Hfailed) eq_refl)
      as (e & w' & Hthrow); [by right|].
    discriminate Hthrow.
  - eexists. split; [reflexivity|]. by vm_compute.
Qed.

(** ** The service client *)

Lemma formatReportToHtml_returns service rawReport commonData studentName
    generationDate w response answer :
  outcome (service (requests w)
             {| req_model := fd_model commonData;
                req_contents :=
                  TextOnly (FormatPrompt generationDate studentName
                              (fd_examInfo commonData) (toStr rawReport));
                req_googleSearch := false |}) = inr response →
  text response = Some answer →
  ∃ w', formatReportToHtml service rawReport commonData studentName
          generationDate w
        = (Ok (stripFence answer), w').
Proof.
  intros H Htext. unfold formatReportToHtml, bind.
  match goal with
  | |- context [generateContent service ?req w] =>
    destruct (generateContent_reply service req w) as (w' & _ & ->)
  end.
  rewrite H, Htext. by eexists.
Qed.

Lemma startsWith_app p s : startsWith (p ++ s) p = true.
Proof.
  induction p as [|c p IH]; [by destruct s|].
  simpl. by rewrite N.eqb_refl.
Qed.

Lemma endsWith_app s p : endsWith (s ++ p) p = true.
Proof. unfold endsWith. rewrite reverse_app. apply startsWith_app. Qed.

Lemma substringFrom_drop s a : a ≤ length s → substringFrom s a = drop a s.
Proof.
  intros Ha. unfold substringFrom, substring.
  rewrite (Nat.min_l a), Nat.min_id, (Nat.min_l a), (Nat.max_r a) by lia.
  apply take_ge. rewrite length_drop. lia.
Qed.

Lemma substring_take s b : b ≤ length s → substring s 0 b = take b s.
Proof.
  intros Hb. unfold substring.
  rewrite (Nat.min_l b), !Nat.min_0_l, Nat.max_0_l by lia.
  by rewrite Nat.sub_0_r.
Qed.

(** What the code does get right: a response that starts with the opening
    fence and ends with the closing fence loses both, and what was
    between them is trimmed. *)
Lemma stripFence_wrapped body :
  stripFence (htmlFence ++ body ++ fence) = trim body.
Proof.
  unfold stripFence. rewrite startsWith_app.
  rewrite substringFrom_drop by (rewrite length_app; simpl; lia).
  change (drop 7 (htmlFence ++ body ++ fence)) with (body ++ fence).
  rewrite endsWith_app, substring_take by lia.
  rewrite length_app. change (length fence) with 3.
  replace (length body + 3 - 3) with (length body) by lia.
  by rewrite take_app_length.
Qed.

(** The fences are removed when the response starts with the opening
    fence and ends with the closing one. *)
Example stripFence_fenced :
  stripFence fenced = lit "<div>ok</div>".
Proof. by vm_compute. Qed.

(** C7 fails on the code: when the service puts a newline after the
    closing fence, [formatReportToHtml] checks for the closing fence
    before it trims, does not find it at the very end, and returns a text
    that still ends with the fence. *)
Theorem closing_fence_followed_by_newline_is_kept rawReport commonData
    studentName generationDate w :
  ∃ w' html,
    formatReportToHtml (answering fencedThenNewline) rawReport commonData
      studentName generationDate w
    = (Ok html, w')
    ∧ html = lit "<div>ok</div>
```"
    ∧ endsWith html fence = true.
Proof.
  destruct (formatReportToHtml_returns (answering fencedThenNewline)
              rawReport commonData studentName generationDate w
              (plainResponse fencedThenNewline) fencedThenNewline
              eq_refl eq_refl) as [w' ->].
  exists w', (stripFence fencedThenNewline). split; [done|].
  split; by vm_compute.
Qed.

(** ** The references of a search *)

Section SetOf.

Context {A : Type} `{EqDecision A}.

Lemma setOf_snoc (l : list A) x :
  setOf (l ++ [x])
  = if bool_decide (x ∈ setOf l) then setOf l else setOf l ++ [x].
Proof. unfold setOf. by rewrite foldl_app. Qed.

Lemma setOf_elem (l : list A) x : x ∈ setOf l ↔ x ∈ l.
Proof.
  induction l as [|y l IH] using rev_ind; [done|].
  rewrite setOf_snoc, elem_of_app, list_elem_of_singleton.
  case_bool_decide as Hy.
  - rewrite IH. split; [auto|]. intros [?| ->]; [done|]. by apply IH.
  - by rewrite elem_of_app, list_elem_of_singleton, IH.
Qed.

Lemma setOf_NoDup (l : list A) : NoDup (setOf l).
Proof.
  induction l as [|y l IH] using rev_ind; [constructor|].
  rewrite setOf_snoc. case_bool_decide as Hy; [done|].
  apply NoDup_app. split; [done|]. split; [|apply NoDup_singleton].
  intros x Hx ->%list_elem_of_singleton. done.
Qed.

(** What is listed before an element is what was seen before its first
    occurrence. *)
Lemma setOf_first (l : list A) before u after :
  setOf l = before ++ u :: after →
  ∃ earlier later,
    l = earlier ++ u :: later
    ∧ (u ∉ earlier)
    ∧ (∀ v, v ∈ before ↔ v ∈ earlier).
Proof.
  revert before u after.
  induction l as [|y l IH] using rev_ind; intros before u after Heq.
  - by destruct before.
  - rewrite setOf_snoc in Heq. case_bool_decide as Hy.
    + destruct (IH _ _ _ Heq) as (earlier & later & -> & Hu & Hv).
      exists earlier, (later ++ [y]). by rewrite <- app_assoc.
    + destruct after as [|a after _] using rev_ind.
      * apply app_inj_tail in Heq as [Hbefore ->].
        exists l, []. split; [done|]. split.
        -- by rewrite <- setOf_elem.
        -- intros v. by rewrite <- Hbefore, setOf_elem.
      * rewrite app_comm_cons, app_assoc in Heq.
        apply app_inj_tail in Heq as [Heq ->].
        destruct (IH _ _ _ Heq) as (earlier & later & -> & Hu & Hv).
        exists earlier, (later ++ [a]). by rewrite <- app_assoc.
Qed.

End SetOf.

Lemma setOf_Some (l : list jsstring) :
  setOf (Some <$> l) = Some <$> setOf l.
Proof.
  induction l as [|y l IH] using rev_ind; [done|].
  rewrite fmap_app. simpl. rewrite !setOf_snoc, IH.
  assert (Hiff : Some y ∈ Some <$> setOf l ↔ y ∈ setOf l).
  { rewrite list_elem_of_fmap. split; [|by eauto].
    by intros (z & [= ->] & Hz). }
  destruct (decide (y ∈ setOf l)) as [Hin|Hnin].
  - by rewrite !bool_decide_eq_true_2 by tauto.
  - rewrite !bool_decide_eq_false_2 by tauto. by rewrite fmap_app.
Qed.

(** The set of the code is the list of first occurrences. *)
Lemma setOf_from (l : list jsstring) : ∀ acc,
  foldl setAdd acc l = acc ++ filter (λ v, v ∉ acc) (firstSeen l).
Proof.
  induction l as [|x l IH]; intros acc; simpl.
  - by rewrite app_nil_r.
  - rewrite IH, filter_cons. unfold setAdd. case_bool_decide as Hx.
    + rewrite decide_False by tauto. f_equal.
      rewrite list_filter_filter. apply list_filter_iff.
      intros v. split; [|tauto]. intros Hv. split; [done|]. by intros ->.
    + rewrite decide_True by done. rewrite <- app_assoc. simpl. do 2 f_equal.
      rewrite list_filter_filter. apply list_filter_iff.
      intros v. rewrite elem_of_app, list_elem_of_singleton. tauto.
Qed.

Lemma setOf_firstSeen (l : list jsstring) : setOf l = firstSeen l.
Proof.
  unfold setOf. rewrite setOf_from. simpl. apply filter_all.
  apply Forall_forall. intros v _. apply not_elem_of_nil.
Qed.

(** The grounding chunks the code reaches are the source references of
    the response. *)
Lemma groundingChunksOf_references response :
  default [] (groundingChunksOf response) = sourceReferences response.
Proof. by destruct response as [t [[|[[[[chunks|]]|]] cs]|]]. Qed.

(** The URIs the code keeps are the sources of the response. *)
Lemma truthy_uris (chunks : list Chunk) :
  filter (λ u, truthy u = true) (chunkUri <$> chunks)
  = Some <$> omap sourceOf chunks.
Proof.
  induction chunks as [|c chunks IH]; [done|].
  rewrite fmap_cons, filter_cons.
  destruct c as [[[[[|x u]|]]|]]; simpl; by rewrite IH.
Qed.

Lemma reference_lines (listed : list jsstring) (start : jsstring) :
  foldl (λ references url, references ++ referenceLine url) start
    (Some <$> listed)
  = start ++ concat ((λ u, dash ++ u ++ lineEnd) <$> listed).
Proof.
  revert start. induction listed as [|u listed IH]; intros start.
  - simpl. by rewrite app_nil_r.
  - rewrite !fmap_cons. cbn [foldl concat]. rewrite IH.
    unfold referenceLine. cbn [toStr]. by rewrite <- !app_assoc.
Qed.

Lemma referencesOf_sources response :
  referencesOf response = referencesSection (setOf (sources response)).
Proof.
  unfold referencesOf, sources.
  rewrite <- groundingChunksOf_references.
  destruct (groundingChunksOf response) as [[|c chunks]|]; try done.
  simpl default. rewrite truthy_uris, setOf_Some, length_fmap.
  destruct (setOf (omap sourceOf (c :: chunks))) as [|u listed] eqn:Hset.
  - done.
  - case_decide as Hlen; [|simpl in Hlen; lia].
    by rewrite reference_lines.
Qed.

Section Search.

Variable service : Behaviour.

(** C8. When the service answers the search request with a response that
    has a generated text, [searchScoringCriteria] returns the generated
    text (trimmed) followed by the references section of the URIs
    [listed]: the fixed heading and one line per URI, where [listed] is
    the list of the sources of the response (the references that have a
    URI) without duplicates and in first-seen order; when the response
    has no source, nothing is appended to the generated text. *)
Theorem references_list_each_source_once_in_first_seen_order examInfo model w
    response generated :
  outcome (service (requests w)
             {| req_model := model;
                req_contents := TextOnly (SearchPrompt examInfo);
                req_googleSearch := true |}) = inr response →
  text response = Some generated →
  ∃ listed w',
    searchScoringCriteria service examInfo model w
    = (Ok (trim generated ++ referencesSection listed), w')
    ∧ listed = firstSeen (sources response)
    ∧ firstSeenOrder listed (sources response)
    ∧ (sources response = [] →
       searchScoringCriteria service examInfo model w
       = (Ok (trim generated), w')).
Proof.
  intros Hreply Htext. unfold searchScoringCriteria, bind.
  destruct (generateContent_reply service (searchRequest examInfo model) w)
    as (w' & _ & ->).
  unfold searchRequest. rewrite Hreply, Htext. unfold ret.
  rewrite referencesOf_sources.
  exists (setOf (sources response)), w'.
  split; [done|]. split; [apply setOf_firstSeen|]. split.
  - split; [apply setOf_NoDup|]. split; [apply setOf_elem|].
    apply setOf_first.
  - intros ->. simpl. by rewrite app_nil_r.
Qed.

End Search.

Lemma references_list_each_source_once_in_first_seen_order_witness :
  let response := groundedResponse (lit "  criteria ") someChunks in
  let service : Behaviour := λ _ _, {| outcome := inr response; elapsed := 1 |} in
  let w := initialWorld 0 in
  outcome (service (requests w)
             {| req_model := defaultModel;
                req_contents := TextOnly (SearchPrompt (lit "exam"));
                req_googleSearch := true |})
  = inr response
  ∧ text response = Some (lit "  criteria ")
  ∧ sources response
    = [lit "https://a.example"; lit "https://b.example";
       lit "https://a.example"]
  ∧ ∃ listed w',
      listed = [lit "https://a.example"; lit "https://b.example"]
      ∧ firstSeenOrder listed (sources response)
      ∧ searchScoringCriteria service (lit "exam") defaultModel w
        = (Ok (trim (lit "  criteria ") ++ referencesSection listed), w')
      ∧ trim (lit "  criteria ") ++ referencesSection listed
        = lit "criteria

---
**참고 자료:**
- https://a.example
- https://b.example
".
Proof.
  intros response service w.
  split; [reflexivity|]. split; [reflexivity|]. split; [by vm_compute|].
  destruct (references_list_each_source_once_in_first_seen_order service
              (lit "exam") defaultModel w response (lit "  criteria ")
              eq_refl eq_refl)
    as (listed & w' & Hsearch & Hlisted & Horder & _).
  exists listed, w'.
  split; [rewrite Hlisted; by vm_compute|].
  split; [exact Horder|]. split; [exact Hsearch|].
  rewrite Hlisted. by vm_compute.
Defined.

Example references_of_someChunks :
  fst (searchScoringCriteria
         (λ _ _, {| outcome := inr (groundedResponse (lit "  criteria ")
                                      someChunks);
                    elapsed := 1 |})
         (lit "exam") defaultModel (initialWorld 0))
  = Ok (lit "criteria

---
**참고 자료:**
- https://a.example
- https://b.example
").
Proof. by vm_compute. Qed.

(** ** Failures of a search *)

Lemma trimStart_blank s :
  Forall (λ c, isWhiteSpace c = true) s → trimStart s = [].
Proof. induction 1 as [|c s Hc _ IH]; [done|]. simpl. by rewrite Hc. Qed.

Lemma trim_blank s : Forall (λ c, isWhiteSpace c = true) s → trim s = [].
Proof. intros H. unfold trim. by rewrite (trimStart_blank s H). Qed.

Section SearchFailure.

Variable service : Behaviour.

(** C9, as the code has it. [searchScoringCriteria] sends one request,
    the search request for the exam description and the model, and
    throws in two cases only: when the call of the service throws, and
    then it throws what the call threw; and when the response has no
    text at all, and then it throws a [TypeError]. Whenever the response
    has a text it returns normally, whatever the text is: the trimmed
    text followed by the references, so a blank text without sources is
    returned as the empty criteria text. *)
Theorem search_fails_on_a_failed_call_or_a_missing_text examInfo model w :
  let request := {| req_model := model;
                    req_contents := TextOnly (SearchPrompt examInfo);
                    req_googleSearch := true |} in
  let result := fst (searchScoringCriteria service examInfo model w) in
  let w' := snd (searchScoringCriteria service examInfo model w) in
  trace w' = trace w ++ [(clock w, EvGenerateContent request)]
  ∧ requests w' = S (requests w)
  ∧ (∀ e, outcome (service (requests w) request) = inl e → result = Throw e)
  ∧ (∀ response,
       outcome (service (requests w) request) = inr response →
       match text response with
       | None => ∃ message, result = Throw (JsError message)
       | Some generated =>
         ∃ criteria,
           result = Ok criteria
           ∧ trim generated `prefix_of` criteria
           ∧ (sources response = [] → criteria = trim generated)
           ∧ (Forall (λ c, isWhiteSpace c = true) generated →
              sources response = [] → criteria = [])
       end)
  ∧ ((∃ e, result = Throw e)
     ↔ (∃ e, outcome (service (requests w) request) = inl e)
       ∨ ∃ response, outcome (service (requests w) request) = inr response
                     ∧ text response = None).
Proof.
  intros request result w'. subst result w'.
  unfold searchScoringCriteria, bind, generateContent, searchRequest, emit.
  fold request. simpl.
  destruct (outcome (service (requests w) request)) as [e|response] eqn:Hreply;
    simpl.
  - split; [done|]. split; [done|]. split; [by intros ? [= ->]|].
    split; [done|]. split; [eauto|]. by eauto.
  - rewrite referencesOf_sources.
    destruct (text response) as [generated|] eqn:Htext; simpl.
    + split; [done|]. split; [done|]. split; [done|]. split.
      * intros ? [= <-]. rewrite Htext. eexists. split; [reflexivity|].
        split; [by apply prefix_app_r|]. split.
        -- intros ->. simpl. apply app_nil_r.
        -- intros Hblank ->. simpl. by rewrite (trim_blank _ Hblank).
      * split; [by intros [? ?]|].
        intros [[? [=]]|(? & [= <-] & Hnone)]. congruence.
    + split; [done|]. split; [done|]. split; [done|]. split.
      * intros ? [= <-]. rewrite Htext. by eexists.
      * split; [|by eauto]. intros _. right. by eauto.
Qed.

End SearchFailure.

(** C9, as the specification states it, fails: when the service answers
    with a text that is a single newline and has no reference, the search
    returns the empty text as a success. *)
Lemma empty_response_is_returned_as_success :
  ¬ neverReturnsEmpty (answering (lit "
")).
Proof.
  intros H.
  eapply (H (lit "exam") defaultModel (initialWorld 0) []); reflexivity.
Qed.

(** ** The initial model *)

Lemma includes_elem (l : list jsstring) s : includes l s = true ↔ s ∈ l.
Proof.
  unfold includes. rewrite existsb_exists. split.
  - intros (x & Hin & ->%strictEq_true). by apply list_elem_of_In.
  - intros Hin. exists s. split; [by apply list_elem_of_In|apply strictEq_refl].
Qed.

Lemma defaultModel_available : defaultModel ∈ AVAILABLE_MODELS.
Proof. by left. Qed.

(** C10. Whatever reading the preferred-model key gives (it throws, it
    returns nothing, or it returns a string), the initial model is one of
    the three available models; when a string is stored, the initial model
    is that string if and only if it is one of the available models, and
    it is the default 'gemini-2.5-flash' if it is not; in every other case
    (nothing stored, the read fails) it is the default. *)
Theorem initial_model_is_the_saved_one_iff_available (getItem : StorageRead) :
  AVAILABLE_MODELS
  = [lit "gemini-2.5-flash"; lit "gemini-2.5-pro"; lit "gemini-3-pro-preview"]
  ∧ defaultModel = lit "gemini-2.5-flash"
  ∧ getInitialModel getItem ∈ AVAILABLE_MODELS
  ∧ match getItem with
    | ReadReturns (Some saved) =>
      (getInitialModel getItem = saved ↔ saved ∈ AVAILABLE_MODELS)
      ∧ (saved ∉ AVAILABLE_MODELS → getInitialModel getItem = defaultModel)
    | ReadReturns None | ReadThrows => getInitialModel getItem = defaultModel
    end.
Proof.
  split; [by vm_compute|]. split; [by vm_compute|].
  destruct getItem as [|[saved|]]; unfold getInitialModel;
    try (split; [apply defaultModel_available|reflexivity]).
  destruct (includes AVAILABLE_MODELS saved) eqn:Hinc.
  - apply includes_elem in Hinc as Hin.
    assert (Htruthy : truthy (Some saved) = true).
    { destruct saved; [|done]. exfalso. vm_compute in Hinc. discriminate. }
    rewrite Htruthy. simpl. split; [done|]. split; [done|]. done.
  - assert (Hnot : saved ∉ AVAILABLE_MODELS).
    { intros Hin%includes_elem. congruence. }
    rewrite andb_false_r.
    split; [apply defaultModel_available|]. split; [|done].
    split; [|done]. intros <-. exfalso. apply Hnot, defaultModel_available.
Qed.

(** ** The theorems at concrete rosters *)

Lemma grade_failure_is_isolated_witness :
  let formData := formOf [studentA; studentC] in
  let w := run failingOnce showTime formData (initialWorld 0) in
  let e := JsError (lit "fetch failed") in
  students formData !! 0 = Some studentA
  ∧ (1, EvReturn Grade 0 (Throw e)) ∈ trace w
  ∧ (∀ t', (t', EvCall Format 0) ∉ trace w)
  ∧ results w !! 0
    = Some {| status := error; rr_data := None;
              rr_error := Some (lit "fetch failed");
              studentName := name studentA; studentId := id studentA;
              progressMessage := None |}
  ∧ (∃ t', (t', EvCall Grade 1) ∈ trace w)
  ∧ ∃ r, results w !! 1 = Some r ∧ terminal r.
Proof.
  intros formData w e.
  assert (H1 : students formData !! 0 = Some studentA) by reflexivity.
  assert (H2 : (1, EvReturn Grade 0 (Throw e)) ∈ trace w).
  { vm_compute. repeat constructor. }
  assert (H3 : NoDup (id <$> students formData)).
  { apply (bool_decide_unpack _). by vm_compute. }
  split; [exact H1|]. split; [exact H2|].
  destruct (grade_failure_is_isolated failingOnce showTime formData
              (initialWorld 0) 0 studentA 1 e H1 H2)
    as (Hformat & Hrecord & Hlater).
  split; [exact Hformat|]. split; [exact (Hrecord H3)|].
  apply (Hlater 1). simpl. lia.
Defined.


Lemma progress_advances_at_the_start_of_each_turn_witness :
  let formData := formOf [studentA; studentB] in
  let w := run (answering fenced) showTime formData (initialWorld 0) in
  progressHistory (trace w)
  = [ {| current := 0; total := 2 |}; {| current := 1; total := 2 |};
      {| current := 2; total := 2 |} ]
  ∧ progress w = {| current := 2; total := 2 |}
  ∧ ∃ pre post t rs,
      trace w
      = pre ++ [(t, EvSetProgress {| current := 2; total := 2 |});
                (t, EvNewDate); (t, EvSetResults rs); (t, EvCall Grade 1)]
            ++ post
      ∧ ∀ te, te ∈ pre → indexOf te.2 ≠ Some 1.
Proof.
  intros formData w.
  destruct (progress_advances_at_the_start_of_each_turn (answering fenced)
              showTime formData (initialWorld 0)) as (Hhist & Hfinal & Hturn).
  split; [exact Hhist|]. split; [exact Hfinal|].
  exact (Hturn 1 studentB eq_refl).
Defined.

Lemma done_record_carries_the_date_read_before_grading_witness :
  let formData := formOf [studentA; studentB] in
  let w := run (answering fenced) showTime formData (initialWorld 0) in
  students formData !! 0 = Some studentA
  ∧ NoDup (id <$> students formData)
  ∧ (2, EvReturn Format 0 (Ok (Some (lit "<div>ok</div>")))) ∈ trace w
  ∧ ∃ pre post t0 rs rs' raw t1,
      trace w
      = pre ++ [(t0, EvNewDate); (t0, EvSetResults rs); (t0, EvCall Grade 0)]
            ++ post
      ∧ (t1, EvGenerateContent
               {| req_model := model formData;
                  req_contents :=
                    TextOnly (FormatPrompt (showTime t0) (name studentA)
                                (examInfo formData) raw);
                  req_googleSearch := false |}) ∈ post
      ∧ (2, EvSetResults rs') ∈ post
      ∧ t0 ≤ 2
      ∧ rs' !! 0 = results w !! 0
      ∧ results w !! 0
        = Some {| status := done;
                  rr_data :=
                    Some {| htmlContent := lit "<div>ok</div>";
                            studentEmail := email studentA;
                            rd_studentName := name studentA;
                            rd_examInfo := examInfo formData;
                            generationDate := showTime t0 |};
                  rr_error := None;
                  studentName := name studentA; studentId := id studentA;
                  progressMessage := None |}.
Proof.
  intros formData w.
  assert (H1 : students formData !! 0 = Some studentA) by reflexivity.
  assert (H2 : NoDup (id <$> students formData)).
  { apply (bool_decide_unpack _). by vm_compute. }
  assert (H3 : (2, EvReturn Format 0 (Ok (Some (lit "<div>ok</div>")))) ∈ trace w).
  { vm_compute. repeat constructor. }
  split; [exact H1|]. split; [exact H2|]. split; [exact H3|].
  exact (done_record_carries_the_date_read_before_grading (answering fenced)
           showTime formData (initialWorld 0) 0 studentA 2
           (lit "<div>ok</div>") H1 H2 H3).
Defined.

Lemma record_moves_forward_to_a_terminal_state_witness :
  let formData := formOf [studentA; studentC] in
  let w := run failingOnce showTime formData (initialWorld 0) in
  students formData !! 0 = Some studentA
  ∧ NoDup (id <$> students formData)
  ∧ phaseOf (initialResult studentA) = Some Pending
  ∧ chainFrom (initialResult studentA) (recordHistory 0 (trace w))
  ∧ neverTransitionsAgain 0 (trace w)
  ∧ (∃ r, results w !! 0 = Some r
          ∧ last (recordHistory 0 (trace w)) = Some r
          ∧ (phaseOf r = Some Done ∨ phaseOf r = Some Failed))
  ∧ ∀ w' j r reportData,
      results w' !! j = Some r → terminal r →
      ∃ w'', setResults (forStudent (studentId r) (withDone reportData)) w'
             = (Ok tt, w'')
             ∧ results w'' !! j
               = Some {| status := done; rr_data := Some reportData;
                         rr_error := rr_error r;
                         studentName := studentName r;
                         studentId := studentId r;
                         progressMessage := None |}.
Proof.
  intros formData w.
  assert (H1 : students formData !! 0 = Some studentA) by reflexivity.
  assert (H2 : NoDup (id <$> students formData)).
  { apply (bool_decide_unpack _). by vm_compute. }
  split; [exact H1|]. split; [exact H2|].
  exact (record_moves_forward_to_a_terminal_state failingOnce showTime formData
           (initialWorld 0) 0 studentA H1 H2).
Defined.

Lemma initial_model_is_the_saved_one_iff_available_witness :
  getInitialModel (ReadReturns (Some (lit "gemini-2.5-pro")))
  = lit "gemini-2.5-pro"
  ∧ getInitialModel (ReadReturns (Some (lit "gpt-4"))) = lit "gemini-2.5-flash"
  ∧ getInitialModel (ReadReturns (Some [])) = lit "gemini-2.5-flash"
  ∧ getInitialModel (ReadReturns None) = lit "gemini-2.5-flash"
  ∧ getInitialModel ReadThrows = lit "gemini-2.5-flash".
Proof.
  destruct (initial_model_is_the_saved_one_iff_available
              (ReadReturns (Some (lit "gemini-2.5-pro"))))
    as (_ & Hdefault & _ & Hsaved & _).
  split; [apply Hsaved; apply (bool_decide_unpack _); by vm_compute|].
  destruct (initial_model_is_the_saved_one_iff_available
              (ReadReturns (Some (lit "gpt-4")))) as (_ & _ & _ & _ & Hother).
  split; [rewrite <- Hdefault; apply Hother;
          apply (bool_decide_unpack _); by vm_compute|].
  destruct (initial_model_is_the_saved_one_iff_available
              (ReadReturns (Some []))) as (_ & _ & _ & _ & Hempty).
  split; [rewrite <- Hdefault; apply Hempty;
          apply (bool_decide_unpack _); by vm_compute|].
  destruct (initial_model_is_the_saved_one_iff_available (ReadReturns None))
    as (_ & _ & _ & Hnone).
  split; [by rewrite <- Hdefault|].
  destruct (initial_model_is_the_saved_one_iff_available ReadThrows)
    as (_ & _ & _ & Hthrows).
  by rewrite <- Hdefault.
Defined.

(** ** The scenarios of the specification *)

(** A roster of a student with documents and a student without solution
    documents: the first ends done with a rendered report, the second
    failed with the validation message, and the progress ends at (2, 2). *)
Example scenario_valid_then_missing :
  let w := run (answering fenced) showTime (formOf [studentA; studentB])
             (initialWorld 0) in
  (status <$> results w) = [done; error]
  ∧ (rr_error <$> results w) = [None; Some validationMessage]
  ∧ (fmap htmlContent <$> (rr_data <$> results w))
    = [Some (lit "<div>ok</div>"); None]
  ∧ progress w = {| current := 2; total := 2 |}
  ∧ isLoading w = false.
Proof. by vm_compute. Qed.

(** A roster of one student whose grading request fails in transport: the
    record ends failed with the message of the transport error, after one
    request only. *)
Example scenario_transport_error :
  let w := run failing showTime (formOf [studentA]) (initialWorld 0) in
  results w
  = [ {| status := error; rr_data := None;
         rr_error := Some (lit "fetch failed");
         studentName := name studentA; studentId := id studentA;
         progressMessage := None |} ]
  ∧ requests w = 1
  ∧ length (filter (λ te, isRequest te = true) (trace w)) = 1.
Proof. by vm_compute. Qed.

(** Why the ids of the roster have to be distinct for what is said of one
    record: two students who share an id share their updates, and the
    record of the first one, whose grading failed, ends [done] with the
    report of the second one. *)
Example shared_id_overwrites_the_first_record :
  let w := run (answering fenced) showTime (formOf [studentB; studentB'])
             (initialWorld 0) in
  (status <$> results w) = [done; done]
  ∧ (fmap rd_studentName <$> (rr_data <$> results w))
    = [Some (name studentB'); Some (name studentB')]
  ∧ (rr_error <$> results w) = [Some validationMessage; Some validationMessage].
Proof. by vm_compute. Qed.

(** * More of the code *)

(** ** The name of a saved report *)

Lemma isSafe_not_space c : isSafe c = true → isWhiteSpace c = false.
Proof.
  unfold isSafe, isWhiteSpace. intros H.
  repeat match goal with
  | H : (_ || _)%bool = true |- _ => apply orb_true_iff in H as [H|H]
  | H : (_ && _)%bool = true |- _ => apply andb_true_iff in H as [? ?]
  | H : (_ <=? _)%N = true |- _ => apply N.leb_le in H
  | H : (_ =? _)%N = true |- _ => apply N.eqb_eq in H; subst
  end;
  repeat match goal with
  | |- (_ || _)%bool = false => apply orb_false_iff; split
  | |- (_ && _)%bool = false => apply andb_false_iff
  end;
  try reflexivity;
  try (apply N.eqb_neq; lia);
  try (left; apply N.leb_gt; lia); try (right; apply N.leb_gt; lia).
Qed.

Lemma sanitize_all_safe text : Forall (λ c, isSafe c = true) (sanitize text).
Proof.
  unfold sanitize. apply Forall_forall. intros c Hc.
  by apply list_elem_of_filter in Hc as [Hc _].
Qed.

Lemma replaceSpaceRuns_safe b text :
  Forall (λ c, isSafe c = true) text → replaceSpaceRuns b text = text.
Proof.
  intros H. revert b. induction H as [|c r Hc _ IH]; intros b; [done|].
  simpl. by rewrite (isSafe_not_space _ Hc), IH.
Qed.

Lemma filter_safe (text : jsstring) :
  Forall (λ c, isSafe c = true) text →
  filter (λ c, isSafe c = true) text = text.
Proof.
  induction 1 as [|c r Hc _ IH]; [done|].
  rewrite filter_cons. rewrite decide_True by done. by rewrite IH.
Qed.

(** X1. [sanitize] leaves a text made of safe code units only (letters,
    digits, Hangul, underscore, dot, hyphen) as it is, and what it returns
    is always such a text; so it changes nothing when applied twice. *)
Theorem sanitize_keeps_safe_text_and_is_idempotent text :
  Forall (λ c, isSafe c = true) (sanitize text)
  ∧ sanitize (sanitize text) = sanitize text
  ∧ (Forall (λ c, isSafe c = true) text → sanitize text = text).
Proof.
  assert (Hid : ∀ t, Forall (λ c, isSafe c = true) t → sanitize t = t).
  { intros t Ht. unfold sanitize.
    by rewrite replaceSpaceRuns_safe, filter_safe. }
  split; [apply sanitize_all_safe|].
  split; [apply Hid, sanitize_all_safe|apply Hid].
Qed.

(** X2. Whatever the name of the student and the description of the exam,
    the file name of a saved report is made of safe code units only: it
    holds no white space, no slash, no backslash, no colon and no quote;
    and it ends with the fixed suffix and the extension asked for. *)
Theorem createSafeFilename_is_safe reportData extension :
  let filename := createSafeFilename reportData extension in
  Forall (λ c, isSafe c = true) filename
  ∧ Forall (λ c, isWhiteSpace c = false
                 ∧ c ≠ 47%N ∧ c ≠ 92%N ∧ c ≠ 58%N ∧ c ≠ 34%N) filename
  ∧ reportSuffix ++ extensionText extension `suffix_of` filename.
Proof.
  intros filename.
  assert (Hsafe : Forall (λ c, isSafe c = true) filename).
  { unfold filename, createSafeFilename.
    repeat (apply Forall_app; split); try apply sanitize_all_safe.
    - by repeat constructor.
    - by repeat constructor.
    - destruct extension; by repeat constructor. }
  split; [exact Hsafe|]. split.
  - eapply Forall_impl; [exact Hsafe|]. intros c Hc.
    split; [by apply isSafe_not_space|].
    repeat split; intros ->; discriminate Hc.
  - unfold filename, createSafeFilename.
    rewrite !app_assoc. rewrite <- (app_assoc _ reportSuffix).
    apply suffix_app_r. done.
Qed.

(** ** Editing the roster *)

Lemma mapStudent_ids sid upd (l : list StudentData) :
  (∀ s, id (upd s) = id s) → id <$> mapStudent sid upd l = id <$> l.
Proof.
  intros Hupd. unfold mapStudent. rewrite <- list_fmap_compose.
  apply list_fmap_ext. intros _ s _. simpl.
  destruct (strictEq _ _); [apply Hupd|reflexivity].
Qed.

Lemma mapStudent_lookup sid upd (l : list StudentData) i :
  mapStudent sid upd l !! i
  = (λ s, if strictEq (id s) sid then upd s else s) <$> l !! i.
Proof. unfold mapStudent. apply list_lookup_fmap. Qed.

Lemma withField_id field value s : id (withField field value s) = id s.
Proof. by destruct field. Qed.

Lemma remove_ids sid (l : list StudentData) :
  id <$> filter (λ s, strictEq (id s) sid = false) l
  = filter (λ x, x ≠ sid) (id <$> l).
Proof.
  induction l as [|s l IH]; [done|].
  rewrite fmap_cons, !filter_cons.
  destruct (decide (id s = sid)) as [Heq|Hne].
  - rewrite decide_False, decide_False; [done|by intros ?|].
    by rewrite Heq, strictEq_refl.
  - rewrite decide_True, decide_True; [|done|by apply strictEq_ne].
    by rewrite fmap_cons, IH.
Qed.

(** X3. The four operations of the form on the roster keep the ids of the
    students distinct: adding a student whose new id is not yet in the
    roster, removing a student, changing a text field of a student and
    changing the solution files of a student. The last two keep the list
    of ids as it is. *)
Theorem roster_edits_keep_ids_distinct formData :
  NoDup (id <$> students formData) →
  (∀ uuid, uuid ∉ id <$> students formData →
     NoDup (id <$> students (mergeForm formData (handleAddStudent formData uuid))))
  ∧ (∀ sid,
     NoDup (id <$> students (mergeForm formData (handleRemoveStudent formData sid))))
  ∧ (∀ sid field value,
     id <$> students (mergeForm formData
                        (handleStudentChange formData sid field value))
     = id <$> students formData)
  ∧ (∀ sid files,
     id <$> students (mergeForm formData
                        (handleStudentFilesChange formData sid files))
     = id <$> students formData).
Proof.
  intros Hnodup. simpl. split; [|split; [|split]].
  - intros uuid Hfresh. rewrite fmap_app. simpl.
    apply NoDup_app. split; [done|]. split; [|apply NoDup_singleton].
    intros x Hx ->%list_elem_of_singleton. done.
  - intros sid. rewrite remove_ids. by apply NoDup_filter.
  - intros sid field value. apply mapStudent_ids, withField_id.
  - intros sid files. by apply mapStudent_ids.
Qed.

(** X4. Changing a text field of the student [sid] keeps the length and
    the order of the roster. At every position, a student with another
    id is left as it is; a student with that id has the new value in the
    field that was named, and keeps its id, its solution files and its
    two other text fields. When no student has that id the roster is
    unchanged. *)
Theorem handleStudentChange_touches_only_that_student formData sid field value :
  let roster' :=
    students (mergeForm formData (handleStudentChange formData sid field value)) in
  length roster' = length (students formData)
  ∧ (∀ i s, students formData !! i = Some s → id s ≠ sid →
       roster' !! i = Some s)
  ∧ (∀ i s, students formData !! i = Some s → id s = sid →
       ∃ s', roster' !! i = Some s'
             ∧ id s' = sid
             ∧ solutionFiles s' = solutionFiles s
             ∧ name s' = match field with
                         | NameField => value
                         | _ => name s
                         end
             ∧ email s' = match field with
                          | EmailField => value
                          | _ => email s
                          end
             ∧ reportTemplate s' = match field with
                                   | ReportTemplateField => value
                                   | _ => reportTemplate s
                                   end)
  ∧ (sid ∉ id <$> students formData → roster' = students formData).
Proof.
  simpl. split; [unfold mapStudent; by rewrite length_fmap|]. split; [|split].
  - intros i s Hi Hne. rewrite mapStudent_lookup, Hi. simpl.
    by rewrite strictEq_ne.
  - intros i s Hi <-. rewrite mapStudent_lookup, Hi. simpl.
    rewrite strictEq_refl. eexists. split; [reflexivity|].
    by destruct field.
  - intros Hnotin. unfold mapStudent.
    rewrite <- (list_fmap_id (students formData)) at 2.
    apply list_fmap_ext. intros i s Hi. simpl.
    rewrite strictEq_ne; [done|]. intros Heq. apply Hnotin.
    apply list_elem_of_fmap. exists s. split; [done|].
    by eapply list_elem_of_lookup_2.
Qed.

(** X5. Removing the student [sid] leaves no student with that id and
    keeps every other student, in the order they had; when the ids are
    distinct and a student has that id, exactly one student is removed. *)
Theorem handleRemoveStudent_removes_that_student formData sid :
  let roster' := students (mergeForm formData (handleRemoveStudent formData sid)) in
  (sid ∉ id <$> roster')
  ∧ roster' `sublist_of` students formData
  ∧ (∀ s, s ∈ students formData → id s ≠ sid → s ∈ roster')
  ∧ (NoDup (id <$> students formData) → sid ∈ id <$> students formData →
     S (length roster') = length (students formData)).
Proof.
  simpl. split; [|split; [|split]].
  - rewrite remove_ids. intros Hin. by apply list_elem_of_filter in Hin as [Hne _].
  - apply sublist_filter.
  - intros s Hin Hne. apply list_elem_of_filter. split; [|done].
    by apply strictEq_ne.
  - intros Hnodup Hin.
    rewrite <- (length_fmap id), remove_ids, <- (length_fmap id (students formData)).
    revert Hnodup Hin. generalize (id <$> students formData). intros l.
    induction l as [|x l IH]; intros Hnodup Hin.
    + by apply elem_of_nil in Hin.
    + apply NoDup_cons in Hnodup as [Hx Hnodup]. rewrite filter_cons.
      destruct (decide (x = sid)) as [->|Hne].
      * rewrite decide_False by (by intros ?). simpl. f_equal.
        f_equal. apply filter_all.
        apply Forall_forall. intros y Hy ->. done.
      * rewrite decide_True by done. simpl. f_equal. apply IH; [done|].
        apply elem_of_cons in Hin as [?|?]; [congruence|done].
Qed.

(** X6. Changing the solution files of the student [sid] gives that
    student the new files and keeps its id, name, email and report
    template; a student with another id keeps the files it had, at the
    position it had. *)
Theorem handleStudentFilesChange_replaces_the_files_of_that_student
    formData sid files :
  let roster' :=
    students (mergeForm formData
                (handleStudentFilesChange formData sid files)) in
  length roster' = length (students formData)
  ∧ ∀ i s, students formData !! i = Some s →
      ∃ s', roster' !! i = Some s'
            ∧ id s' = id s ∧ name s' = name s ∧ email s' = email s
            ∧ reportTemplate s' = reportTemplate s
            ∧ solutionFiles s'
              = if decide (id s = sid) then files else solutionFiles s.
Proof.
  simpl. split; [unfold mapStudent; by rewrite length_fmap|].
  intros i s Hi. rewrite mapStudent_lookup, Hi. simpl.
  destruct (decide (id s = sid)) as [Heq|Hne].
  - rewrite Heq, strictEq_refl. by eexists.
  - rewrite strictEq_ne by done. by eexists.
Qed.

(** ** The list of files of an input *)

Lemma handleFileRemove_from (files : list File) : ∀ k i,
  snd <$> filter (λ p : nat * File, p.1 ≠ k + i) (zip (seq k (length files)) files)
  = delete i files.
Proof.
  induction files as [|f files IH]; intros k i; [done|].
  simpl. rewrite filter_cons. simpl. destruct i as [|i].
  - rewrite decide_False by lia. simpl.
    replace (k + 0) with k by lia.
    rewrite filter_all.
    + rewrite snd_zip; [done|]. by rewrite length_seq.
    + apply Forall_forall. intros [j g] Hin. simpl.
      apply elem_of_zip_l in Hin. apply elem_of_seq in Hin. lia.
  - rewrite decide_True by lia. simpl. f_equal.
    replace (k + S i) with (S k + i) by lia. apply IH.
Qed.

(** X7. Removing the file at an index deletes that position and nothing
    else; an index out of range changes nothing; and removing the file
    that was just added to an input with [multiple] gives back the files
    there were. *)
Theorem handleFileRemove_deletes_that_index files indexToRemove :
  handleFileRemove files indexToRemove = delete indexToRemove files
  ∧ (∀ j, handleFileRemove files indexToRemove !! j
          = if decide (j < indexToRemove) then files !! j else files !! S j)
  ∧ (length files ≤ indexToRemove →
     handleFileRemove files indexToRemove = files)
  ∧ (∀ file,
       (λ added, handleFileRemove added (length files))
       <$> handleFileAdd true files (Some [file])
       = Some files).
Proof.
  assert (Heq : ∀ l i, handleFileRemove l i = delete i l).
  { intros l i. unfold handleFileRemove. apply (handleFileRemove_from l 0 i). }
  split; [apply Heq|]. split; [|split].
  - intros j. rewrite Heq. destruct (decide (j < indexToRemove)).
    + by apply list_lookup_delete_lt.
    + apply list_lookup_delete_ge. lia.
  - intros Hle. rewrite Heq, delete_take_drop.
    rewrite take_ge, drop_ge by lia. by rewrite app_nil_r.
  - intros file. simpl. f_equal. rewrite Heq.
    rewrite (delete_middle files [] file). by rewrite app_nil_r.
Qed.

(** ** The validation of the form *)

Lemma notBlank_true s : notBlank s = true ↔ trim s ≠ [].
Proof.
  unfold notBlank. rewrite negb_true_iff. split.
  - intros H Heq. rewrite Heq in H. by rewrite strictEq_refl in H.
  - apply strictEq_ne.
Qed.

Lemma nonempty_length {A} (l : list A) : bool_decide (0 < length l) = true ↔ l ≠ [].
Proof.
  rewrite bool_decide_eq_true. destruct l; simpl; split; try done; try lia.
Qed.

(** The form is valid when the two texts are not blank, there is an exam
    document and a student, and every student has a name, an email and a
    solution document. *)
Lemma isFormValid_true formData :
  isFormValid formData = true
  ↔ trim (examInfo formData) ≠ [] ∧ trim (scoringCriteria formData) ≠ []
    ∧ examMaterials formData ≠ [] ∧ students formData ≠ []
    ∧ Forall (λ s, trim (name s) ≠ [] ∧ trim (email s) ≠ []
                   ∧ solutionFiles s ≠ [])
        (students formData).
Proof.
  unfold isFormValid, validation. simpl.
  rewrite !andb_true_iff, !notBlank_true, !nonempty_length.
  rewrite forallb_forall, Forall_forall.
  setoid_rewrite andb_true_iff. setoid_rewrite andb_true_iff.
  setoid_rewrite notBlank_true. setoid_rewrite nonempty_length.
  setoid_rewrite <- list_elem_of_In.
  split; [intros (?&?&?&?&H5&_)|intros (?&?&?&?&H5)]; 
    do 4 (split; [done|]); [|split; [|done]];
    intros st Hst; specialize (H5 st Hst); tauto.
Qed.

(** X8. The form is never valid right after a student is added: the new
    student has no name, so the form stays invalid (and the button that
    starts the batch disabled) until it is filled in; and a form without
    a student is not valid either. *)
Theorem form_is_invalid_once_a_student_is_added formData uuid :
  isFormValid (mergeForm formData (handleAddStudent formData uuid)) = false
  ∧ (students formData = [] → isFormValid formData = false).
Proof.
  split.
  - apply not_true_is_false. intros (_ & _ & _ & _ & Hall)%isFormValid_true.
    simpl in Hall. apply Forall_app in Hall as [_ Hnew].
    apply Forall_singleton in Hnew as [Hname _]. by apply Hname.
  - intros Hnone. apply not_true_is_false.
    intros (_ & _ & _ & Hsome & _)%isFormValid_true. done.
Qed.

(** ** More about the run *)

Lemma sorted_after i (l1 l2 : list nat) :
  Forall (λ x, x = i) l1 → Forall (λ x, S i ≤ x) l2 →
  StronglySorted le l2 → StronglySorted le (l1 ++ l2).
Proof.
  intros H1 H2 Hs. induction H1 as [|x l -> Hl IH]; simpl; [done|].
  constructor; [done|]. apply Forall_app. split.
  - eapply Forall_impl; [exact Hl|]. simpl. intros; lia.
  - eapply Forall_impl; [exact H2|]. simpl. intros; lia.
Qed.

Section MoreTurnFacts.

Variable service : Behaviour.
Variable toLocaleString : nat → jsstring.
Variable formData : FormData.

Local Abbreviation Turn := (Turn service toLocaleString formData).
Local Abbreviation Loop := (Loop service toLocaleString formData).

(** What a turn leaves alone, and what it sends. *)
Lemma turn_frame i s w δ w' :
  Turn i s w δ w' →
  isLoading w' = isLoading w ∧ appError w' = appError w
  ∧ clock w ≤ clock w'
  ∧ loadingHistory δ = [] ∧ errorHistory δ = []
  ∧ requests w' = requests w + length (requestsSent δ)
  ∧ length (requestsSent δ) ≤ 2
  ∧ Forall (λ req, req_model req = model formData
                   ∧ req_googleSearch req = false) (requestsSent δ).
Proof.
  intros H. destruct H; subst; unfold_turn; simpl;
    repeat (split; [first [done|lia]|]); repeat constructor.
Qed.

Lemma turn_calls i s w δ w' :
  Turn i s w δ w' →
  callsOf Grade δ = [i]
  ∧ (callsOf Format δ = [] ∨ callsOf Format δ = [i])
  ∧ Forall (λ x, x = i) (callIndices δ).
Proof.
  intros H. destruct H; subst; unfold_turn; simpl;
    (split; [done|]); (split; [by auto|]); repeat constructor.
Qed.

Lemma loop_frame i rest w δ w' :
  Loop i rest w δ w' →
  isLoading w' = isLoading w ∧ appError w' = appError w
  ∧ clock w ≤ clock w'
  ∧ loadingHistory δ = [] ∧ errorHistory δ = []
  ∧ requests w' = requests w + length (requestsSent δ)
  ∧ length (requestsSent δ) ≤ 2 * length rest
  ∧ Forall (λ req, req_model req = model formData
                   ∧ req_googleSearch req = false) (requestsSent δ).
Proof.
  induction 1 as [i w|i s rest w δ1 w1 δ2 w2 Hturn Hloop IH].
  - repeat split; try done.
  - destruct (turn_frame _ _ _ _ _ Hturn)
      as (Hl1 & He1 & Hc1 & Hlh1 & Heh1 & Hr1 & Hn1 & Hq1).
    destruct IH as (Hl2 & He2 & Hc2 & Hlh2 & Heh2 & Hr2 & Hn2 & Hq2).
    unfold loadingHistory, errorHistory, requestsSent in *.
    rewrite !omap_app, length_app, Forall_app.
    rewrite Hlh1, Hlh2, Heh1, Heh2. simpl.
    repeat split; try done; try congruence; lia.
Qed.

Lemma loop_calls i rest w δ w' :
  Loop i rest w δ w' →
  callsOf Grade δ = seq i (length rest)
  ∧ callsOf Format δ `sublist_of` seq i (length rest)
  ∧ StronglySorted le (callIndices δ)
  ∧ Forall (λ x, i ≤ x) (callIndices δ).
Proof.
  induction 1 as [i w|i s rest w δ1 w1 δ2 w2 Hturn Hloop IH].
  - repeat split; constructor.
  - destruct (turn_calls _ _ _ _ _ Hturn) as (Hg1 & Hf1 & Hi1).
    destruct IH as (Hg2 & Hf2 & Hs2 & Hi2).
    unfold callsOf, callIndices in *.
    rewrite !omap_app, Hg1, Hg2. simpl.
    split; [done|]. split; [|split].
    + destruct Hf1 as [-> | ->]; simpl.
      * by apply sublist_cons.
      * by apply sublist_skip.
    + by apply (sorted_after i).
    + apply Forall_app. split.
      * eapply Forall_impl; [exact Hi1|]. simpl. intros; lia.
      * eapply Forall_impl; [exact Hi2|]. simpl. intros; lia.
Qed.

End MoreTurnFacts.
Section MoreRunFacts.

Variable service : Behaviour.
Variable toLocaleString : nat → jsstring.
Variable formData : FormData.
Variable w0 : World.

Local Abbreviation Turn := (Turn service toLocaleString formData).
Local Abbreviation Loop := (Loop service toLocaleString formData).
Local Abbreviation run := (run service toLocaleString formData w0).
Local Abbreviation roster := (students formData).
Local Abbreviation afterPrologue := (afterPrologue formData w0).

(** The world a run ends in is the world the loop ends in, with
    [isLoading] set to false. *)
Lemma run_end :
  ∃ δ wl,
    Loop 0 roster afterPrologue δ wl
    ∧ run = exec (setIsLoading false) wl
    ∧ trace run
      = trace afterPrologue ++ δ ++ [(clock wl, EvSetIsLoading false)].
Proof.
  destruct (forLoop_Loop service toLocaleString formData roster 0 afterPrologue)
    as (δ & wl & Hloop & HLoop).
  exists δ, wl. split; [exact HLoop|].
  assert (Heq : run = exec (setIsLoading false) wl).
  { unfold App.run, exec, handleGenerateReport, bind.
    rewrite prologue_ok. by rewrite Hloop. }
  split; [exact Heq|]. rewrite Heq.
  change (trace (exec (setIsLoading false) wl))
    with (trace wl ++ [(clock wl, EvSetIsLoading false)]).
  by rewrite (loop_trace _ _ _ _ _ _ _ _ HLoop), <- app_assoc.
Qed.

(** X9. A run sets [isLoading] twice: to true as its first effect and to
    false as its last one, so the flag is false when the handler returns,
    however the students fared. The app-level error is cleared once, at
    the start, and never set: the failure of a student is only written to
    the record of that student. *)
Theorem loading_flag_brackets_the_run :
  loadingHistory (trace run) = [true; false]
  ∧ errorHistory (trace run) = [None]
  ∧ isLoading run = false ∧ appError run = None
  ∧ head (trace run) = Some (clock w0, EvSetIsLoading true)
  ∧ last (trace run) = Some (clock run, EvSetIsLoading false)
  ∧ clock w0 ≤ clock run.
Proof.
  destruct run_end as (δ & wl & HLoop & Heq & Htrace).
  destruct (loop_frame _ _ _ _ _ _ _ _ HLoop)
    as (Hl & He & Hc & Hlh & Heh & _).
  unfold loadingHistory, errorHistory in *.
  split; [rewrite Htrace, !omap_app, Hlh; reflexivity|].
  split; [rewrite Htrace, !omap_app, Heh; reflexivity|].
  split; [rewrite Heq; reflexivity|].
  split; [rewrite Heq; simpl; rewrite He; reflexivity|].
  split; [rewrite Htrace; reflexivity|].
  split; [rewrite Htrace, app_assoc, last_snoc, Heq; reflexivity|].
  rewrite Heq. exact Hc.
Qed.


(** X11. The grading stage is called exactly once for every student, in
    the order of the roster; the formatting stage is called at most once
    per student, in that order too; and the calls and returns of the two
    stages never interleave between students: their loop indices never
    decrease along the trace. *)
Theorem stages_are_called_in_roster_order :
  callsOf Grade (trace run) = seq 0 (length roster)
  ∧ callsOf Format (trace run) `sublist_of` seq 0 (length roster)
  ∧ StronglySorted le (callIndices (trace run)).
Proof.
  destruct run_end as (δ & wl & HLoop & Heq & Htrace).
  destruct (loop_calls _ _ _ _ _ _ _ _ HLoop) as (Hg & Hf & Hs & _).
  unfold callsOf, callIndices in *.
  rewrite Htrace, !omap_app. simpl. rewrite !app_nil_r.
  split; [exact Hg|]. split; [exact Hf|exact Hs].
Qed.

(** X12. A run starts from scratch: the records, the progress, the
    loading flag and the error left by whatever came before have no
    influence on it. Two runs that start at the same time, with the
    service in the same state, end in the same world. *)
Theorem run_forgets_the_state_before w0' :
  clock w0 = clock w0' → requests w0 = requests w0' →
  run = App.run service toLocaleString formData w0'.
Proof.
  intros Hclock Hrequests.
  unfold App.run, exec, handleGenerateReport, bind.
  rewrite !prologue_ok.
  assert (Hw : ∀ w,
    App.afterPrologue formData w
    = {| results := initialResult <$> roster;
         progress := {| current := 0; total := length roster |};
         isLoading := true; appError := None;
         clock := clock w; requests := requests w;
         trace :=
           [ (clock w, EvSetIsLoading true); (clock w, EvSetError None);
             (clock w, EvSetProgress {| current := 0;
                                        total := length roster |});
             (clock w, EvSetResults (initialResult <$> roster)) ] |})
    by reflexivity.
  assert (Heq : afterPrologue = App.afterPrologue formData w0').
  { rewrite !Hw, Hclock, Hrequests. reflexivity. }
  rewrite Heq. reflexivity.
Qed.

End MoreRunFacts.
Section StageFacts.

Variable service : Behaviour.
Variable toLocaleString : nat → jsstring.
Variable formData : FormData.
Variable w0 : World.

Local Abbreviation Turn := (Turn service toLocaleString formData).
Local Abbreviation Loop := (Loop service toLocaleString formData).
Local Abbreviation run := (run service toLocaleString formData w0).
Local Abbreviation roster := (students formData).
Local Abbreviation afterPrologue := (afterPrologue formData w0).

(** A turn whose formatting call throws [e]: the grading call had
    returned, and the record of the student is left failed with the
    message of [e]. *)
Lemma turn_format_throws i s w δ w' t e :
  Turn i s w δ w' → (t, EvReturn Format i (Throw e)) ∈ δ →
  (∃ t1 raw, t1 ≤ t ∧ (t1, EvReturn Grade i (Ok raw)) ∈ δ)
  ∧ ∀ k r, results w !! k = Some r → studentId r = id s →
           results w' !! k = Some (withError (messageOf e) r).
Proof.
  intros H Hin.
  destruct H; subst; unfold_turn_in Hin; in_cases Hin.
  split.
  - eexists _, _. split; [|unfold_turn; simpl; do 5 right; left].
    lia.
  - intros k r Hk Hid. unfold_turn. simpl.
    erewrite forStudent_lookup_eq; [|lookup_own Hk Hid|exact Hid].
    reflexivity.
Qed.

(** X13. If the formatting stage fails for the student at index [k] (the
    call of [formatReportToHtml] made for that student throws [e]), the
    grading stage had returned a text for that student, and that text is
    lost: when the ids of the roster are distinct, the record of that
    student ends with status [error], the message captured from [e] and
    no report. Every later student is still processed. *)
Theorem format_failure_is_isolated k student t e :
  roster !! k = Some student →
  (t, EvReturn Format k (Throw e)) ∈ trace run →
  (∃ t1 raw, t1 ≤ t ∧ (t1, EvReturn Grade k (Ok raw)) ∈ trace run)
  ∧ (NoDup (id <$> roster) →
     results run !! k
     = Some {| status := error; rr_data := None;
               rr_error := Some (messageOf e);
               studentName := name student; studentId := id student;
               progressMessage := None |})
  ∧ (∀ j, k < j < length roster →
       (∃ t', (t', EvCall Grade j) ∈ trace run)
       ∧ ∃ r, results run !! j = Some r ∧ terminal r).
Proof.
  intros Hk Hthrow.
  destruct (run_turn service toLocaleString formData w0 k student Hk)
    as (wk & δ & wk' & post & Hturn & Htrace & _ & Hpre & Hpost & Hcalls & Hrec).
  apply (run_turn_event _ _ _ _ _ _ _ _ (t, EvReturn Format k (Throw e))
           Htrace Hpre Hpost eq_refl) in Hthrow.
  destruct (turn_format_throws _ _ _ _ _ _ _ Hturn Hthrow)
    as [(t1 & raw & Ht1 & Hgraded) Hfailed].
  split; [|split].
  - exists t1, raw. split; [done|]. rewrite Htrace, !elem_of_app. auto.
  - intros Hnodup. destruct (Hrec Hnodup) as (Hk0 & _ & -> & _).
    by rewrite (Hfailed _ _ Hk0 eq_refl).
  - intros j Hj. split.
    + destruct (Hcalls j Hj) as [t' Ht']. exists t'.
      rewrite Htrace, !elem_of_app. auto.
    + destruct (lookup_lt_is_Some_2 roster j) as [s Hs]; [lia|].
      by eapply run_terminal.
Qed.

(** A turn whose grading call returns [raw] at time [t]. *)
Lemma turn_grade_returns i s w δ w' t raw :
  Turn i s w δ w' → (t, EvReturn Grade i (Ok raw)) ∈ δ →
  (clock w, EvNewDate) ∈ δ ∧ (clock w, EvCall Grade i) ∈ δ ∧ clock w ≤ t
  ∧ (t, EvCall Format i) ∈ δ
  ∧ (t, EvGenerateContent (formatRequest toLocaleString formData s w raw)) ∈ δ
  ∧ ∃ graded,
      outcome (service (requests w) (gradeRequest formData s)) = inr graded
      ∧ raw = text graded.
Proof.
  intros H Hin.
  destruct H; subst; unfold_turn_in Hin; in_cases Hin; unfold_turn; simpl;
    (split; [do 1 right; left|]); (split; [do 3 right; left|]);
    (split; [lia|]); (split; [do 7 right; left|]);
    (split; [do 8 right; left|]); eauto.
Qed.

(** X14. When the grading stage returns for the student at index [k],
    what it returns is the text of the answer of the service as it is
    (it is not trimmed, and it is [undefined] when the answer has no
    text); the formatting stage is called for that student at once, and
    the request it sends carries that text (the word undefined in its
    place when there is none), with the name of the student, the exam
    description of the form and the date read at the start of the turn,
    before the grading call. *)
Theorem graded_text_goes_to_the_formatter_as_it_is k student t raw :
  roster !! k = Some student →
  (t, EvReturn Grade k (Ok raw)) ∈ trace run →
  ∃ t0, t0 ≤ t
    ∧ (t0, EvNewDate) ∈ trace run ∧ (t0, EvCall Grade k) ∈ trace run
    ∧ (t, EvCall Format k) ∈ trace run
    ∧ (t, EvGenerateContent
            {| req_model := model formData;
               req_contents :=
                 TextOnly (FormatPrompt (toLocaleString t0) (name student)
                             (examInfo formData)
                             (match raw with
                              | Some report => report
                              | None => undefinedText
                              end));
               req_googleSearch := false |}) ∈ trace run
    ∧ ∃ q graded,
        outcome (service q (gradeRequest formData student)) = inr graded
        ∧ raw = text graded.
Proof.
  intros Hk Hret.
  destruct (run_turn service toLocaleString formData w0 k student Hk)
    as (wk & δ & wk' & post & Hturn & Htrace & _ & Hpre & Hpost & _).
  apply (run_turn_event _ _ _ _ _ _ _ _ (t, EvReturn Grade k (Ok raw))
           Htrace Hpre Hpost eq_refl) in Hret.
  destruct (turn_grade_returns _ _ _ _ _ _ _ Hturn Hret)
    as (Hdate & Hcall & Hle & Hformat & Hreq & graded & Hgraded & ->).
  exists (clock wk). rewrite Htrace. rewrite !elem_of_app.
  split; [done|]. do 4 (split; [by auto|]). eauto.
Qed.

End StageFacts.
Section ValidForm.

Variable service : Behaviour.
Variable toLocaleString : nat → jsstring.
Variable formData : FormData.
Variable w0 : World.

Local Abbreviation Turn := (Turn service toLocaleString formData).
Local Abbreviation Loop := (Loop service toLocaleString formData).
Local Abbreviation run := (run service toLocaleString formData w0).
Local Abbreviation roster := (students formData).
Local Abbreviation afterPrologue := (afterPrologue formData w0).

(** The turn of a student with its documents, when the service answers
    every request with a text: two requests, and the records of that
    student hold a report. *)
Lemma turn_succeeds i s w δ w' :
  (∀ n req, ∃ response answer,
     outcome (service n req) = inr response ∧ text response = Some answer) →
  ¬ missingInput formData s → Turn i s w δ w' →
  requests w' = S (S (requests w))
  ∧ callsOf Format δ = [i]
  ∧ ∀ k r, results w !! k = Some r →
      ∃ r', results w' !! k = Some r'
            ∧ rr_error r' = rr_error r
            ∧ (studentId r = id s → status r' = done ∧ is_Some (rr_data r'))
            ∧ (studentId r ≠ id s → r' = r).
Proof.
  intros answers Hvalid H.
  destruct H as [δ Hmiss _|e t δ _ Hgrade _ _|graded e t t' δ _ _ _ Hformat _ _
                 |graded html t t' δ _ Hgrade _ Hformat _ ->].
  - done.
  - destruct (answers (requests w) (gradeRequest formData s))
      as (? & ? & Hr & _).
    congruence.
  - destruct (answers (S (requests w))
                (formatRequest toLocaleString formData s w (text graded)))
      as (? & ? & Hr & Htext).
    unfold formatted in Hformat. rewrite Hr, Htext in Hformat.
    discriminate Hformat.
  - split; [done|]. split; [done|].
    intros k r Hk. unfold_turn. simpl.
    destruct (decide (studentId r = id s)) as [Hid|Hid].
    + eexists. split; [lookup_own Hk Hid|]. simpl.
      split; [done|]. split; [|done]. intros _. split; [done|]. by eexists.
    + exists r. split.
      * do 3 (eapply forStudent_lookup_ne; [|exact Hid]). exact Hk.
      * split; [done|]. split; [done|]. done.
Qed.

Lemma loop_succeeds i rest w δ w' :
  (∀ n req, ∃ response answer,
     outcome (service n req) = inr response ∧ text response = Some answer) →
  Forall (λ s, ¬ missingInput formData s) rest →
  Loop i rest w δ w' →
  requests w' = requests w + 2 * length rest
  ∧ callsOf Format δ = seq i (length rest)
  ∧ ∀ k r, results w !! k = Some r → rr_error r = None →
      status r = done ∧ is_Some (rr_data r) ∨ studentId r ∈ id <$> rest →
      ∃ r', results w' !! k = Some r'
            ∧ status r' = done ∧ rr_error r' = None ∧ is_Some (rr_data r').
Proof.
  intros answers Hvalid H.
  induction H as [i w|i s rest w δ1 w1 δ2 w2 Hturn Hloop IH].
  - split; [simpl; lia|]. split; [done|].
    intros k r Hk Herr [[Hdone Hdata]|Hin].
    + by exists r.
    + by apply elem_of_nil in Hin.
  - apply Forall_cons in Hvalid as [Hs Hvalid].
    destruct (turn_succeeds _ _ _ _ _ answers Hs Hturn) as (Hr1 & Hf1 & Hrec1).
    destruct (IH Hvalid) as (Hr2 & Hf2 & Hrec2).
    split; [simpl; lia|].
    split; [unfold callsOf in *; by rewrite omap_app, Hf1, Hf2|].
    intros k r Hk Herr Hcase.
    destruct (Hrec1 k r Hk) as (r1 & Hk1 & Herr1 & Hown & Hother).
    apply (Hrec2 k r1 Hk1); [congruence|].
    destruct (decide (studentId r = id s)) as [Hid|Hid].
    + left. by apply Hown.
    + rewrite (Hother Hid). destruct Hcase as [Hdone|Hin]; [by left|].
      right. rewrite fmap_cons in Hin.
      apply elem_of_cons in Hin as [Heq|Hin]; [done|exact Hin].
Qed.

(** X15. What the form checks before it lets the batch start is enough
    for the handler: on a valid form, when the service answers every
    request with a response that has a text, no student fails. Every record ends [done] with a report and
    without an error, both stages are called for every student, and
    exactly two requests per student are sent. *)
Theorem valid_form_and_answering_service_give_every_report :
  isFormValid formData = true →
  (∀ n req, ∃ response answer,
     outcome (service n req) = inr response ∧ text response = Some answer) →
  length (results run) = length roster
  ∧ Forall (λ r, status r = done ∧ rr_error r = None ∧ is_Some (rr_data r))
      (results run)
  ∧ callsOf Format (trace run) = seq 0 (length roster)
  ∧ requests run = requests w0 + 2 * length roster.
Proof.
  intros (_ & _ & Hexam & _ & Hstudents)%isFormValid_true answers.
  assert (Hvalid : Forall (λ s, ¬ missingInput formData s) roster).
  { eapply Forall_impl; [exact Hstudents|]. simpl.
    intros s (_ & _ & Hfiles) [Hmiss|Hmiss].
    - by destruct (examMaterials formData).
    - by destruct (solutionFiles s). }
  destruct (run_end service toLocaleString formData w0)
    as (δ & wl & HLoop & Heq & Htrace).
  destruct (loop_succeeds _ _ _ _ _ answers Hvalid HLoop)
    as (Hr & Hf & Hrec).
  destruct (loop_ids _ _ _ _ _ _ _ _ HLoop) as [Hids _].
  assert (Hlen : length (results wl) = length roster).
  { rewrite <- (length_fmap studentId), Hids, afterPrologue_results.
    by rewrite !length_fmap. }
  split; [by rewrite Heq|]. split; [|split].
  - rewrite Heq. simpl. apply Forall_lookup. intros k r' Hk'.
    destruct (lookup_lt_is_Some_2 roster k) as [s Hs].
    { rewrite <- Hlen. by eapply lookup_lt_Some. }
    destruct (Hrec k (initialResult s)) as (r'' & Hk'' & Hrep).
    + by rewrite afterPrologue_results, list_lookup_fmap, Hs.
    + done.
    + right. simpl. apply list_elem_of_fmap. exists s. split; [done|].
      by eapply list_elem_of_lookup_2.
    + rewrite Hk' in Hk''. by injection Hk'' as <-.
  - unfold callsOf in *. rewrite Htrace, !omap_app, Hf. simpl.
    apply app_nil_r.
  - rewrite Heq. exact Hr.
Qed.

End ValidForm.

Section ShownName.

Variable service : Behaviour.
Variable toLocaleString : nat → jsstring.
Variable formData : FormData.
Variable w0 : World.

Local Abbreviation run := (run service toLocaleString formData w0).
Local Abbreviation roster := (students formData).

(** The values of [progress] along a run. *)
Lemma run_progressHistory :
  progressHistory (trace run)
  = (λ c, {| current := c; total := length roster |})
    <$> seq 0 (S (length roster)).
Proof.
  destruct (run_end service toLocaleString formData w0)
    as (δ & wl & HLoop & Heq & Htrace).
  destruct (loop_progress _ _ _ _ _ _ _ _ HLoop) as (Hhist & _).
  rewrite afterPrologue_progress in Hhist. simpl in Hhist.
  rewrite Htrace, afterPrologue_trace. unfold progressHistory in *.
  rewrite !omap_app, Hhist. simpl. by rewrite app_nil_r.
Qed.

(** X16. The name the page shows as the one being processed, for the
    successive values of [progress] of a run: none at first, then the
    name of each student of the roster, in the order of the roster; that
    of the last student stays when the run ends. *)
Theorem shown_name_follows_the_roster :
  currentProcessingStudentName formData <$> progressHistory (trace run)
  = [] :: (name <$> roster)
  ∧ currentProcessingStudentName formData (progress run)
    = default [] (name <$> last roster).
Proof.
  assert (Hname : ∀ k n,
    currentProcessingStudentName formData {| current := S k; total := n |}
    = default [] (name <$> roster !! k)).
  { intros k n. unfold currentProcessingStudentName. simpl.
    destruct (roster !! k) as [s|]; [|done]. simpl.
    by destruct (name s). }
  split.
  - rewrite run_progressHistory. simpl. f_equal.
    rewrite <- list_fmap_compose. apply list_eq. intros k.
    rewrite !list_lookup_fmap.
    destruct (roster !! k) as [s|] eqn:Hk.
    + rewrite lookup_seq_lt by (by eapply lookup_lt_Some). simpl.
      by rewrite Hname, Hk.
    + rewrite lookup_seq_ge by (by apply lookup_ge_None). done.
  - destruct (run_end service toLocaleString formData w0)
      as (δ & wl & HLoop & Heq & Htrace).
    destruct (loop_progress _ _ _ _ _ _ _ _ HLoop) as (_ & Htotal & Hcurrent).
    rewrite Heq. simpl.
    destruct (decide (roster = [])) as [Hnil|Hsome].
    + rewrite Hnil in HLoop |- *. inversion HLoop; subst. done.
    + specialize (Hcurrent Hsome). simpl in Hcurrent.
      destruct (progress wl) as [c n]. simpl in Hcurrent. subst c.
      destruct (length roster) as [|m] eqn:Hm.
      { by destruct roster. }
      rewrite Hname, last_lookup, Hm. done.
Qed.

End ShownName.

(** ** The form of the application *)

Lemma available_not_empty m : m ∈ AVAILABLE_MODELS → m ≠ [].
Proof.
  intros Hin ->. revert Hin. apply (bool_decide_unpack _). by vm_compute.
Qed.

Lemma truthy_Some m : m ≠ [] → truthy (Some m) = true.
Proof. by destruct m. Qed.

Lemma getInitialModel_saved m :
  m ≠ [] →
  getInitialModel (ReadReturns (Some m))
  = if bool_decide (m ∈ AVAILABLE_MODELS) then m else defaultModel.
Proof.
  intros Hne. unfold getInitialModel. rewrite (truthy_Some m Hne), andb_true_l.
  destruct (includes AVAILABLE_MODELS m) eqn:Hinc.
  - apply includes_elem in Hinc. by rewrite (bool_decide_eq_true_2 _ Hinc).
  - assert (Hnot : m ∉ AVAILABLE_MODELS).
    { intros Hin%includes_elem. congruence. }
    by rewrite (bool_decide_eq_false_2 _ Hnot).
Qed.


(** X18. The model chosen in the form is used by the running session.
    What the next session starts with depends on the storage: the default
    when the storage cannot be read; when it can be read but refused the
    write, whatever the storage held before, so an available model saved
    earlier comes back; and when the write was accepted, the chosen
    model if it is one of the available models, the default if it is
    not. *)
Theorem preferred_model_survives_a_reload newFormData s m :
  p_model newFormData = Some m →
  m ≠ [] →
  let s' := handleFormChange newFormData s in
  let reloaded := model (initialFormData (ss_storage s')) in
  model (ss_formData s') = m
  ∧ (unreadable (ss_storage s) = true → reloaded = defaultModel)
  ∧ (unreadable (ss_storage s) = false → denied (ss_storage s) = true →
     reloaded = model (initialFormData (ss_storage s))
     ∧ ∀ old, items (ss_storage s) !! preferredAiModelKey = Some old →
              old ∈ AVAILABLE_MODELS → reloaded = old)
  ∧ (unreadable (ss_storage s) = false → denied (ss_storage s) = false →
     reloaded = if bool_decide (m ∈ AVAILABLE_MODELS) then m
                else defaultModel).
Proof.
  intros Hm Hne. simpl. split.
  - unfold handleFormChange. rewrite Hm, (truthy_Some m Hne).
    by destruct (setItem _ _ _).
  - unfold handleFormChange, setItem.
    rewrite Hm, (truthy_Some m Hne). simpl.
    split; [|split].
    + intros Hunreadable. unfold initialFormData. cbn [model].
      unfold getItem.
      destruct (denied (ss_storage s)); cbn [ss_storage unreadable];
        by rewrite Hunreadable.
    + intros Hreadable Hdenied. rewrite Hdenied. cbn [ss_storage].
      split; [done|]. intros old Hold Havailable.
      unfold initialFormData. cbn [model]. unfold getItem.
      rewrite Hreadable, Hold.
      rewrite (getInitialModel_saved old (available_not_empty old Havailable)).
      by rewrite (bool_decide_eq_true_2 _ Havailable).
    + intros Hreadable Hdenied. rewrite Hdenied. cbn [ss_storage].
      unfold initialFormData. cbn [model]. unfold getItem.
      cbn [unreadable items]. rewrite Hreadable, lookup_insert_eq.
      by apply getInitialModel_saved.
Qed.

(** X19. A search of the scoring criteria does nothing when the exam
    description is empty. Otherwise it clears the error state and sends
    exactly one request: the search request for the exam description and
    the model of the form, with the search tool. When the service
    answers with a text, the scoring criteria of the form become the
    trimmed text followed by the references section of its sources, and
    nothing else changes. When the call fails, or when the answer has no
    text (a [TypeError]), the form is left as it is and the message of
    the failure is shown in an alert, after the prefix '검색 오류: ', and
    logged. In every case the search button is enabled again and the
    error state of the application stays empty. *)
Theorem handleSearchCriteria_outcomes service pg :
  let formData := pg_formData pg in
  let pg' := handleSearchCriteria service pg in
  let request := {| req_model := model formData;
                    req_contents := TextOnly (SearchPrompt (examInfo formData));
                    req_googleSearch := true |} in
  let failed (e : Exn) (message : jsstring) :=
    pg_formData pg' = formData
    ∧ pg_alerts pg' = pg_alerts pg ++ [searchErrorPrefix ++ message]
    ∧ pg_console pg' = pg_console pg ++ [e] in
  searchErrorPrefix = lit "검색 오류: "
  ∧ searchErrorFallback = lit "채점 기준을 검색하는 중 오류가 발생했습니다."
  ∧ (examInfo formData = [] → pg' = pg)
  ∧ (examInfo formData ≠ [] →
     trace (pg_world pg')
     = trace (pg_world pg)
       ++ [(clock (pg_world pg), EvSetError None);
           (clock (pg_world pg), EvGenerateContent request)]
     ∧ requests (pg_world pg') = S (requests (pg_world pg))
     ∧ appError (pg_world pg') = None
     ∧ pg_searchButton pg' = (λ _, false) <$> pg_searchButton pg
     ∧ match outcome (service (requests (pg_world pg)) request) with
       | inr response =>
         match text response with
         | Some generated =>
           pg_formData pg'
           = {| examInfo := examInfo formData;
                scoringCriteria :=
                  trim generated
                  ++ referencesSection (firstSeen (sources response));
                examMaterials := examMaterials formData;
                students := students formData;
                model := model formData |}
           ∧ pg_alerts pg' = pg_alerts pg ∧ pg_console pg' = pg_console pg
         | None => ∃ message, failed (JsError message) message
         end
       | inl (JsError message) => failed (JsError message) message
       | inl JsOther => failed JsOther searchErrorFallback
       end).
Proof.
  simpl. split; [by vm_compute|]. split; [by vm_compute|]. split.
  - intros Hempty. unfold handleSearchCriteria. by rewrite Hempty.
  - intros Hne. unfold handleSearchCriteria.
    rewrite (truthy_Some _ Hne). simpl.
    unfold searchScoringCriteria, searchRequest, bind, generateContent, ret,
      exec, setError, throw, emit. simpl.
    destruct (outcome (service (requests (pg_world pg)) _))
      as [[message|]|response]; simpl;
      [| |rewrite referencesOf_sources, setOf_firstSeen;
          destruct (text response) as [generated|]; simpl];
      rewrite <- app_assoc; simpl;
      (repeat (split; [first [done|by destruct (pg_searchButton pg)]|]));
      try done.
    eexists. by repeat split.
Qed.

(** ** More about the service client *)

Lemma upToComma_none s : 44%N ∉ s → upToComma s = s.
Proof.
  induction s as [|c s IH]; [done|]. intros Hnot.
  apply not_elem_of_cons in Hnot as [Hc Hs]. simpl.
  destruct (N.eqb_spec c 44) as [->|_]; [done|]. by rewrite IH.
Qed.

Lemma splitComma1_first (header rest : jsstring) :
  44%N ∉ header → splitComma1 (header ++ 44%N :: rest) = Some (upToComma rest).
Proof.
  induction header as [|c header IH]; [done|]. intros Hnot.
  apply not_elem_of_cons in Hnot as [Hc Hs]. simpl.
  destruct (N.eqb_spec c 44) as [->|_]; [done|]. by apply IH.
Qed.

Lemma splitComma1_none (s : jsstring) : 44%N ∉ s → splitComma1 s = None.
Proof.
  induction s as [|c s IH]; [done|]. intros Hnot.
  apply not_elem_of_cons in Hnot as [Hc Hs]. simpl.
  destruct (N.eqb_spec c 44) as [->|_]; [done|]. by apply IH.
Qed.

(** X20. For a file read as a data URL (a header, a comma, and a payload
    without a comma, as base64 is), the part sent to the service holds
    the payload, exactly, under the media type of the file; anything
    after a second comma would be dropped, and a result without a comma
    gives no data at all. *)
Theorem fileToGenerativePart_gives_the_payload_of_the_data_URL
    file header payload :
  file_dataURL file = Some (header ++ 44%N :: payload) →
  (44%N ∉ header) → (44%N ∉ payload) →
  fileToGenerativePart file
  = {| mimeType := file_type file; data := Some payload |}
  ∧ (∀ more,
       fileToGenerativePart
         {| file_type := file_type file;
            file_dataURL := Some (header ++ 44%N :: payload ++ 44%N :: more) |}
       = fileToGenerativePart file)
  ∧ data (fileToGenerativePart
            {| file_type := file_type file; file_dataURL := Some header |})
    = None.
Proof.
  intros Hurl Hheader Hpayload. unfold fileToGenerativePart.
  rewrite Hurl. simpl. rewrite !splitComma1_first by done.
  rewrite (upToComma_none payload Hpayload).
  split; [done|]. split; [|by apply splitComma1_none].
  intros more. rewrite splitComma1_first by done. do 2 f_equal.
  clear Hurl. induction payload as [|c payload IH]; simpl.
  - done.
  - apply not_elem_of_cons in Hpayload as [Hc Hs].
    destruct (N.eqb_spec c 44) as [->|_]; [done|]. by rewrite IH.
Qed.

Section GradingRequest.

Variable service : Behaviour.

(** X21. With an exam document and a solution document at hand, the
    grading function sends exactly one request and returns the text of
    the answer as it is, or throws what the call threw. The request names
    the model of the form, does not ask for the search tool, and carries
    one part per document: the exam documents first, then the documents
    of the student, in their order, each under its media type. *)
Theorem grading_request_carries_the_exam_then_the_solution
    commonData studentData w :
  cd_examMaterials commonData ≠ [] →
  si_solutionFiles studentData ≠ [] →
  ∃ prompt parts w',
    let req := {| req_model := cd_model commonData;
                  req_contents := Parts prompt parts;
                  req_googleSearch := false |} in
    gradeSolutionAndGenerateFeedback service commonData studentData w
    = (match outcome (service (requests w) req) with
       | inl e => Throw e
       | inr response => Ok (text response)
       end, w')
    ∧ requests w' = S (requests w)
    ∧ trace w' = trace w ++ [(clock w, EvGenerateContent req)]
    ∧ parts = (fileToGenerativePart <$> cd_examMaterials commonData)
              ++ (fileToGenerativePart <$> si_solutionFiles studentData)
    ∧ mimeType <$> parts
      = (file_type <$> cd_examMaterials commonData)
        ++ (file_type <$> si_solutionFiles studentData).
Proof.
  intros Hexam Hsolution.
  unfold gradeSolutionAndGenerateFeedback.
  destruct (decide _) as [[Hmiss|Hmiss]|_].
  - by destruct (cd_examMaterials commonData).
  - by destruct (si_solutionFiles studentData).
  - unfold bind, generateContent, ret, emit. simpl.
    eexists (GradePrompt (si_name studentData) (cd_examInfo commonData)
               (cd_scoringCriteria commonData)
               (studentSpecificInstructionsOf (si_reportTemplate studentData))),
      ((fileToGenerativePart <$> cd_examMaterials commonData)
       ++ (fileToGenerativePart <$> si_solutionFiles studentData)), _.
    split; [destruct (outcome _); reflexivity|]. simpl.
    do 3 (split; [reflexivity|]).
    by rewrite fmap_app, <- !list_fmap_compose.
Qed.

End GradingRequest.

(** ** The text of a formatted report *)

Lemma trimStart_suffix s : trimStart s `suffix_of` s.
Proof.
  induction s as [|c s IH]; [done|]. simpl.
  destruct (isWhiteSpace c); [by apply suffix_cons_r|done].
Qed.

Lemma trimStart_head s c :
  head (trimStart s) = Some c → isWhiteSpace c = false.
Proof.
  induction s as [|d s IH]; [done|]. simpl.
  destruct (isWhiteSpace d) eqn:Hd; [exact IH|]. simpl. congruence.
Qed.

Lemma trimStart_id s :
  (∀ c, head s = Some c → isWhiteSpace c = false) → trimStart s = s.
Proof.
  destruct s as [|d s]; [done|]. intros H. simpl. by rewrite (H d).
Qed.

Lemma trimEnd_prefix s : trimEnd s `prefix_of` s.
Proof.
  apply prefix_suffix_reverse. unfold trimEnd. rewrite reverse_involutive.
  apply trimStart_suffix.
Qed.

Lemma trimEnd_last s c : last (trimEnd s) = Some c → isWhiteSpace c = false.
Proof. unfold trimEnd. rewrite last_reverse. apply trimStart_head. Qed.

Lemma trimEnd_id s :
  (∀ c, last s = Some c → isWhiteSpace c = false) → trimEnd s = s.
Proof.
  intros H. unfold trimEnd. rewrite trimStart_id; [apply reverse_involutive|].
  intros c Hc. apply H. by rewrite <- head_reverse.
Qed.

(** A trimmed text has no white space at either end, and trimming it
    again changes nothing. *)
Lemma trim_clean s :
  (∀ c, head (trim s) = Some c → isWhiteSpace c = false)
  ∧ (∀ c, last (trim s) = Some c → isWhiteSpace c = false)
  ∧ trim (trim s) = trim s.
Proof.
  assert (Hhead : ∀ c, head (trim s) = Some c → isWhiteSpace c = false).
  { intros c Hc. unfold trim in Hc.
    destruct (trimEnd_prefix (trimStart s)) as [ws Hws].
    apply (trimStart_head s). rewrite Hws.
    destruct (trimEnd (trimStart s)); [done|exact Hc]. }
  assert (Hlast : ∀ c, last (trim s) = Some c → isWhiteSpace c = false).
  { intros c. apply trimEnd_last. }
  split; [exact Hhead|]. split; [exact Hlast|].
  unfold trim at 1. rewrite (trimStart_id _ Hhead). by apply trimEnd_id.
Qed.

Lemma trim_infix s : ∃ before after, s = before ++ trim s ++ after.
Proof.
  destruct (trimStart_suffix s) as [before Hs].
  destruct (trimEnd_prefix (trimStart s)) as [after Ht].
  exists before, after. unfold trim. by rewrite <- Ht.
Qed.

Lemma substring_infix s a b : ∃ before after, s = before ++ substring s a b ++ after.
Proof.
  unfold substring. eexists (take _ s), (drop _ (drop _ s)).
  by rewrite take_drop, take_drop.
Qed.

(** An answer that starts with the opening fence only. *)
Lemma stripFence_opened body :
  endsWith body fence = false → 3 ≤ length body →
  stripFence (htmlFence ++ body) = trim body.
Proof.
  intros Hend Hlen. unfold stripFence. rewrite startsWith_app.
  rewrite substringFrom_drop by (rewrite length_app; simpl; lia).
  change (drop 7 (htmlFence ++ body)) with body.
  by rewrite Hend.
Qed.

(** X22. [formatReportToHtml] throws in two cases only: when the call of
    the service throws, and then it throws what the call threw, and when
    the answer has no text, and then it throws a [TypeError]. Otherwise
    it returns a contiguous part of the text of the answer, without white
    space at either end. When the text is a body wrapped in the opening
    fence and the closing fence, both fences are removed and the body is
    trimmed; when it only starts with the opening fence, that fence is
    removed; and when it has neither it is the trimmed text. *)
Theorem formatted_report_is_a_trimmed_part_of_the_answer service rawReport
    commonData studentName generationDate w :
  let request :=
    {| req_model := fd_model commonData;
       req_contents :=
         TextOnly (FormatPrompt generationDate studentName
                     (fd_examInfo commonData)
                     (match rawReport with
                      | Some report => report
                      | None => undefinedText
                      end));
       req_googleSearch := false |} in
  let result :=
    fst (formatReportToHtml service rawReport commonData studentName
           generationDate w) in
  (∀ e, outcome (service (requests w) request) = inl e → result = Throw e)
  ∧ (∀ response,
       outcome (service (requests w) request) = inr response →
       match text response with
       | None => ∃ message, result = Throw (JsError message)
       | Some answer =>
         ∃ html,
           result = Ok html
           ∧ trim html = html
           ∧ (∃ before after, answer = before ++ html ++ after)
           ∧ (∀ c, head html = Some c ∨ last html = Some c →
                   isWhiteSpace c = false)
           ∧ (∀ body, answer = htmlFence ++ body ++ fence →
                      html = trim body)
           ∧ (∀ body, answer = htmlFence ++ body →
                      endsWith body fence = false → 3 ≤ length body →
                      html = trim body)
           ∧ (startsWith answer htmlFence = false →
              endsWith answer fence = false →
              html = trim answer)
       end).
Proof.
  intros request result. subst result.
  unfold formatReportToHtml, bind, generateContent, emit, toStr.
  fold request.
  destruct (outcome (service (requests w) request)) as [e|response]; simpl.
  - split; [by intros ? [= ->]|]. done.
  - split; [done|]. intros ? [= <-].
    destruct (text response) as [answer|]; simpl; [|by eexists].
    exists (stripFence answer). split; [done|].
    split; [apply trim_clean|]. split; [|split; [|split; [|split]]].
    + unfold stripFence.
      set (h1 := if startsWith answer htmlFence then _ else answer).
      set (h2 := if endsWith h1 fence then _ else h1).
      assert (H1 : ∃ b a, answer = b ++ h1 ++ a).
      { subst h1. destruct (startsWith _ _).
        - apply substring_infix.
        - exists [], []. by rewrite app_nil_r. }
      assert (H2 : ∃ b a, h1 = b ++ h2 ++ a).
      { subst h2. destruct (endsWith _ _).
        - apply substring_infix.
        - exists [], []. by rewrite app_nil_r. }
      destruct H1 as (b1 & a1 & H1), H2 as (b2 & a2 & H2).
      destruct (trim_infix h2) as (b3 & a3 & H3).
      exists (b1 ++ b2 ++ b3), (a3 ++ a2 ++ a1).
      rewrite H1 at 1. rewrite H2 at 1. rewrite H3 at 1.
      by rewrite <- !app_assoc.
    + unfold stripFence. intros c [Hc|Hc].
      * revert Hc. apply trim_clean.
      * revert Hc. apply trim_clean.
    + intros body ->. apply stripFence_wrapped.
    + intros body -> Hend Hlen. by apply stripFence_opened.
    + unfold stripFence. intros -> Hend. by rewrite Hend.
Qed.

(** ** The further properties at concrete inputs *)

Lemma roster_edits_keep_ids_distinct_witness :
  let formData := formOf [studentA; studentC] in
  NoDup (id <$> students formData)
  ∧ NoDup (id <$> students (mergeForm formData
                              (handleAddStudent formData (lit "d"))))
  ∧ NoDup (id <$> students (mergeForm formData
                              (handleRemoveStudent formData (lit "a"))))
  ∧ id <$> students (mergeForm formData
                       (handleStudentChange formData (lit "a") NameField
                          (lit "An")))
    = [lit "a"; lit "c"].
Proof.
  intros formData.
  assert (H : NoDup (id <$> students formData)).
  { apply (bool_decide_unpack _). by vm_compute. }
  split; [exact H|].
  destruct (roster_edits_keep_ids_distinct formData H)
    as (Hadd & Hremove & Hchange & _).
  split; [|split].
  - apply Hadd. apply (bool_decide_unpack _). by vm_compute.
  - apply Hremove.
  - rewrite Hchange. reflexivity.
Defined.

Lemma run_forgets_the_state_before_witness :
  let formData := formOf [studentA; studentB] in
  clock usedWorld = clock (initialWorld 0)
  ∧ requests usedWorld = requests (initialWorld 0)
  ∧ run failingOnce showTime formData usedWorld
    = run failingOnce showTime formData (initialWorld 0).
Proof.
  intros formData.
  assert (H1 : clock usedWorld = clock (initialWorld 0)) by reflexivity.
  assert (H2 : requests usedWorld = requests (initialWorld 0)) by reflexivity.
  split; [exact H1|]. split; [exact H2|].
  exact (run_forgets_the_state_before failingOnce showTime formData usedWorld
           (initialWorld 0) H1 H2).
Defined.

Lemma format_failure_is_isolated_witness :
  let formData := formOf [studentA; studentC] in
  let w := run failingSecond showTime formData (initialWorld 0) in
  let e := JsError (lit "quota exceeded") in
  students formData !! 0 = Some studentA
  ∧ (2, EvReturn Format 0 (Throw e)) ∈ trace w
  ∧ (∃ t1 raw, t1 ≤ 2 ∧ (t1, EvReturn Grade 0 (Ok raw)) ∈ trace w)
  ∧ results w !! 0
    = Some {| status := error; rr_data := None;
              rr_error := Some (lit "quota exceeded");
              studentName := name studentA; studentId := id studentA;
              progressMessage := None |}
  ∧ (∃ t', (t', EvCall Grade 1) ∈ trace w)
  ∧ ∃ r, results w !! 1 = Some r ∧ terminal r.
Proof.
  intros formData w e.
  assert (H1 : students formData !! 0 = Some studentA) by reflexivity.
  assert (H2 : (2, EvReturn Format 0 (Throw e)) ∈ trace w).
  { vm_compute. repeat constructor. }
  assert (H3 : NoDup (id <$> students formData)).
  { apply (bool_decide_unpack _). by vm_compute. }
  split; [exact H1|]. split; [exact H2|].
  destruct (format_failure_is_isolated failingSecond showTime formData
              (initialWorld 0) 0 studentA 2 e H1 H2)
    as (Hgraded & Hrecord & Hlater).
  split; [exact Hgraded|]. split; [exact (Hrecord H3)|].
  apply (Hlater 1). simpl. lia.
Defined.

Lemma graded_text_goes_to_the_formatter_as_it_is_witness :
  let formData := formOf [studentA; studentC] in
  let w := run failingSecond showTime formData (initialWorld 0) in
  let raw := lit "<p>7/10</p>" in
  students formData !! 1 = Some studentC
  ∧ (3, EvReturn Grade 1 (Ok (Some raw))) ∈ trace w
  ∧ ∃ t0, t0 ≤ 3
      ∧ (t0, EvNewDate) ∈ trace w ∧ (t0, EvCall Grade 1) ∈ trace w
      ∧ (3, EvCall Format 1) ∈ trace w
      ∧ (3, EvGenerateContent
              {| req_model := model formData;
                 req_contents :=
                   TextOnly (FormatPrompt (showTime t0) (name studentC)
                               (examInfo formData) raw);
                 req_googleSearch := false |}) ∈ trace w
      ∧ ∃ q graded,
          outcome (failingSecond q (gradeRequest formData studentC))
          = inr graded
          ∧ Some raw = text graded.
Proof.
  intros formData w raw.
  assert (H1 : students formData !! 1 = Some studentC) by reflexivity.
  assert (H2 : (3, EvReturn Grade 1 (Ok (Some raw))) ∈ trace w).
  { vm_compute. repeat constructor. }
  split; [exact H1|]. split; [exact H2|].
  exact (graded_text_goes_to_the_formatter_as_it_is failingSecond showTime
           formData (initialWorld 0) 1 studentC 3 (Some raw) H1 H2).
Defined.

Lemma valid_form_and_answering_service_give_every_report_witness :
  let formData := formOf [studentA; studentC] in
  let service := answering fenced in
  let w := run service showTime formData (initialWorld 0) in
  isFormValid formData = true
  ∧ (∀ n req, ∃ response answer,
       outcome (service n req) = inr response ∧ text response = Some answer)
  ∧ length (results w) = 2
  ∧ Forall (λ r, status r = done ∧ rr_error r = None ∧ is_Some (rr_data r))
      (results w)
  ∧ callsOf Format (trace w) = [0; 1]
  ∧ requests w = 4.
Proof.
  intros formData service w.
  assert (H1 : isFormValid formData = true) by (by vm_compute).
  assert (H2 : ∀ n req, ∃ response answer,
            outcome (service n req) = inr response
            ∧ text response = Some answer).
  { intros n req. by eexists _, _. }
  split; [exact H1|]. split; [exact H2|].
  exact (valid_form_and_answering_service_give_every_report service showTime
           formData (initialWorld 0) H1 H2).
Defined.

Lemma preferred_model_survives_a_reload_witness :
  let m := lit "gemini-3-pro-preview" in
  let s1 := handleFormChange (choosing m) freshSession in
  let s2 := handleFormChange (choosing m) fullSession in
  p_model (choosing m) = Some m
  ∧ m ≠ []
  ∧ model (ss_formData s1) = m
  ∧ model (initialFormData (ss_storage s1)) = m
  ∧ model (ss_formData s2) = m
  ∧ model (initialFormData (ss_storage s2)) = lit "gemini-2.5-pro".
Proof.
  intros m s1 s2.
  assert (H1 : p_model (choosing m) = Some m) by reflexivity.
  assert (H2 : m ≠ []) by (by vm_compute).
  split; [exact H1|]. split; [exact H2|].
  destruct (preferred_model_survives_a_reload (choosing m) freshSession m
              H1 H2) as (Hform1 & _ & _ & Haccepted).
  destruct (preferred_model_survives_a_reload (choosing m) fullSession m
              H1 H2) as (Hform2 & _ & Hrefused & _).
  split; [exact Hform1|].
  split; [exact (Haccepted eq_refl eq_refl)|].
  split; [exact Hform2|].
  apply (proj2 (Hrefused eq_refl eq_refl)); [by vm_compute|].
  apply (bool_decide_unpack _). by vm_compute.
Defined.

Lemma fileToGenerativePart_gives_the_payload_of_the_data_URL_witness :
  let header := lit "data:image/png;base64" in
  let payload := lit "iVBORw0KGgo=" in
  file_dataURL pngFile = Some (header ++ 44%N :: payload)
  ∧ (44%N ∉ header) ∧ (44%N ∉ payload)
  ∧ fileToGenerativePart pngFile
    = {| mimeType := lit "image/png"; data := Some payload |}.
Proof.
  intros header payload.
  assert (H1 : file_dataURL pngFile = Some (header ++ 44%N :: payload))
    by (by vm_compute).
  assert (H2 : 44%N ∉ header).
  { apply (bool_decide_unpack _). by vm_compute. }
  assert (H3 : 44%N ∉ payload).
  { apply (bool_decide_unpack _). by vm_compute. }
  split; [exact H1|]. split; [exact H2|]. split; [exact H3|].
  exact (proj1 (fileToGenerativePart_gives_the_payload_of_the_data_URL
                  pngFile header payload H1 H2 H3)).
Defined.

Lemma grading_request_carries_the_exam_then_the_solution_witness :
  let commonData := commonDataOf (formOf [studentC]) in
  let studentData :=
    {| si_name := name studentC;
       si_solutionFiles := solutionFiles studentC;
       si_reportTemplate := reportTemplate studentC |} in
  cd_examMaterials commonData ≠ []
  ∧ si_solutionFiles studentData ≠ []
  ∧ ∃ prompt parts w',
      gradeSolutionAndGenerateFeedback failing commonData studentData
        (initialWorld 0)
      = (Throw (JsError (lit "fetch failed")), w')
      ∧ requests w' = 1
      ∧ trace w'
        = [(0, EvGenerateContent
                 {| req_model := cd_model commonData;
                    req_contents := Parts prompt parts;
                    req_googleSearch := false |})]
      ∧ mimeType <$> parts = [lit "image/png"; lit "image/png"].
Proof.
  intros commonData studentData.
  assert (H1 : cd_examMaterials commonData ≠ []) by done.
  assert (H2 : si_solutionFiles studentData ≠ []) by done.
  split; [exact H1|]. split; [exact H2|].
  destruct (grading_request_carries_the_exam_then_the_solution failing
              commonData studentData (initialWorld 0) H1 H2)
    as (prompt & parts & w' & Hgrade & Hrequests & Htrace & _ & Hmime).
  exists prompt, parts, w'.
  split; [exact Hgrade|]. split; [exact Hrequests|].
  split; [exact Htrace|exact Hmime].
Defined.
